(** * Calcifer's Cookout: the breakout game loop of [scripts/main.py]

    A shallow embedding of [BreakoutGame] (the game state machine, the stage
    sequencer, the ball reset and launch, the brick scan of the collision
    resolver) and the properties of it that the specification states.

    [main.py] imports [Ball], [Paddle] and [Brick] from modules of their own and
    [radians], [sin], [cos] from [math]; the methods of those it calls are the
    fields of the class [Collaborators] below, so that every theorem about the
    game loop holds for any implementation of them. *)

From Stdlib Require Import ZArith Lia Bool.
From Stdlib Require Import Floats.
From stdpp Require Import base option list strings pretty.

Set Warnings "-inexact-float".

Open Scope Z_scope.

(** ** Exceptions

    On a stage table of the shape [Stage.t] describes, the only exception the
    game loop can raise by itself is the [IndexError] of a list subscript,
    [self.stages[stage_index]] or [self.bricks[i]].  The [KeyError] or
    [TypeError] that the dictionary subscripts of [_load_stage] raise on a
    stage file of another shape are not part of this embedding. *)

Inductive exn : Set := IndexError.

Inductive result (A : Type) : Type :=
| Ok (a : A)
| Raise (e : exn).
Arguments Ok {A} a.
Arguments Raise {A} e.

Definition bind {A B : Type} (m : result A) (k : A -> result B) : result B :=
  match m with
  | Ok a => k a
  | Raise e => Raise e
  end.

Notation "'let*' x ':=' m 'in' k" := (bind m (fun x => k))
  (at level 10, x name, m at level 100, k at level 200).

(** [l[i]] for a Python list and an integer index: a negative index counts
    from the end, anything outside [-len l, len l) raises [IndexError]. *)
Definition py_getitem {A : Type} (l : list A) (i : Z) : result A :=
  let n := Z.of_nat (length l) in
  let j := if i <? 0 then n + i else i in
  if (0 <=? j) && (j <? n) then
    match l !! Z.to_nat j with
    | Some a => Ok a
    | None => Raise IndexError
    end
  else Raise IndexError.

(** ** Data model *)

(** [class GameState(Enum)] *)
Inductive GameState : Set := READY | RUNNING | DROPPED | GAME_OVER | WIN.

Definition GameState_eqb (a b : GameState) : bool :=
  match a, b with
  | READY, READY | RUNNING, RUNNING | DROPPED, DROPPED
  | GAME_OVER, GAME_OVER | WIN, WIN => true
  | _, _ => false
  end.

(** [@dataclass class GameStats]: two Python integers. *)
Record GameStats : Set := mkGameStats { score : Z; lives : Z }.

(** [GameStats()]: the dataclass defaults. *)
Definition GameStats_new : GameStats := {| score := 0; lives := 0 |}.

Module Ball.
(** Modelled from the spec: the fields of [Ball] (ball.py is not part of the
    sources at hand).  Position of the top-left corner of the bounding box,
    radius, velocity, gravity, the trail of recent positions and the
    out-of-bounds flag.  [main.py] reads [r] and writes [x], [y], [speed_x],
    [speed_y] and [out_of_bounds].  A Python [int] stored in one of the
    numeric fields is the float of the same value. *)
Record t : Set := mk {
  x : float;
  y : float;
  r : float;
  speed_x : float;
  speed_y : float;
  gravity : float;
  trail : list (float * float);
  out_of_bounds : bool
}.

Definition set_x (b : t) (v : float) : t :=
  mk v (y b) (r b) (speed_x b) (speed_y b) (gravity b) (trail b) (out_of_bounds b).
Definition set_y (b : t) (v : float) : t :=
  mk (x b) v (r b) (speed_x b) (speed_y b) (gravity b) (trail b) (out_of_bounds b).
Definition set_speed_x (b : t) (v : float) : t :=
  mk (x b) (y b) (r b) v (speed_y b) (gravity b) (trail b) (out_of_bounds b).
Definition set_speed_y (b : t) (v : float) : t :=
  mk (x b) (y b) (r b) (speed_x b) v (gravity b) (trail b) (out_of_bounds b).
Definition set_trail (b : t) (v : list (float * float)) : t :=
  mk (x b) (y b) (r b) (speed_x b) (speed_y b) (gravity b) v (out_of_bounds b).
Definition set_out_of_bounds (b : t) (v : bool) : t :=
  mk (x b) (y b) (r b) (speed_x b) (speed_y b) (gravity b) (trail b) v.

(** Modelled from the spec: [Ball.clear_trails] (ball.py is not part of the
    sources at hand); the reset "clears the trail". *)
Definition clear_trails (b : t) : t := set_trail b [].
End Ball.

Module Paddle.
(** Modelled from the spec: the fields of [Paddle] (paddle.py is not part of
    the sources at hand): position and size.  [main.py] reads [x], [y], [w]. *)
Record t : Set := mk { x : float; y : float; w : float; h : float }.
End Paddle.

Module Brick.
(** Modelled from the spec: [Brick(x, y, brick_type)] (brick.py is not part of
    the sources at hand): a position and a type, as read from the stage
    file. *)
Record t : Set := mk { x : Z; y : Z; brick_type : Z }.
End Brick.

(** The stage table is [data["stages"]] as [json.load] returns it, taken to
    have the shape of its annotation, [list[dict[str, list[dict[str, int]]]]],
    with the keys [_load_stage] reads: every stage a dictionary with a list
    under ["bricks"], every brick a dictionary with integers under ["x"],
    ["y"] and ["brick_type"].  [_load_stages] does not check that shape; all
    statements below are about games on a table that has it. *)
Module Stage.
(** One brick record of the stage file: [{"x": _, "y": _, "brick_type": _}]. *)
Record entry : Set := mkEntry { x : Z; y : Z; brick_type : Z }.
(** One stage of the stage file: [{"bricks": [...]}]. *)
Record t : Set := mk { bricks : list entry }.
End Stage.

(** What [pyxel] reports during one frame: the three "button pressed" queries
    of [_check_input], and the pointer that [Paddle.update] follows. *)
Record Input : Set := mkInput {
  btnp_MOUSE_BUTTON_LEFT : bool;
  btnp_KEY_SPACE : bool;
  btnp_KEY_RETURN : bool;
  mouse_x : Z
}.

(** The target handed to [Ball.detect_collision]. *)
Inductive Target : Set :=
| TPaddle (p : Paddle.t)
| TBrick (b : Brick.t).

(** The attributes of a [BreakoutGame] object.  [angle], [angle_direction]
    and [angle_cycle_speed] are annotated [float] in the source but only ever
    hold Python integers: [_reset_ball] assigns 0, 1 and 2, and
    [_update_ready_state] adds, multiplies and negates them. *)
Record BreakoutGame : Set := mkGame {
  gravity : float;
  stats : GameStats;
  paddle : Paddle.t;
  angle : Z;
  angle_direction : Z;
  angle_cycle_speed : Z;
  ball : Ball.t;
  stages : list Stage.t;
  current_stage : Z;
  bricks : list Brick.t;
  current_game_state : GameState
}.

Definition set_stats (g : BreakoutGame) (v : GameStats) : BreakoutGame :=
  mkGame (gravity g) v (paddle g) (angle g) (angle_direction g)
    (angle_cycle_speed g) (ball g) (stages g) (current_stage g) (bricks g)
    (current_game_state g).
Definition set_paddle (g : BreakoutGame) (v : Paddle.t) : BreakoutGame :=
  mkGame (gravity g) (stats g) v (angle g) (angle_direction g)
    (angle_cycle_speed g) (ball g) (stages g) (current_stage g) (bricks g)
    (current_game_state g).
Definition set_angle (g : BreakoutGame) (v : Z) : BreakoutGame :=
  mkGame (gravity g) (stats g) (paddle g) v (angle_direction g)
    (angle_cycle_speed g) (ball g) (stages g) (current_stage g) (bricks g)
    (current_game_state g).
Definition set_angle_direction (g : BreakoutGame) (v : Z) : BreakoutGame :=
  mkGame (gravity g) (stats g) (paddle g) (angle g) v
    (angle_cycle_speed g) (ball g) (stages g) (current_stage g) (bricks g)
    (current_game_state g).
Definition set_angle_cycle_speed (g : BreakoutGame) (v : Z) : BreakoutGame :=
  mkGame (gravity g) (stats g) (paddle g) (angle g) (angle_direction g)
    v (ball g) (stages g) (current_stage g) (bricks g)
    (current_game_state g).
Definition set_ball (g : BreakoutGame) (v : Ball.t) : BreakoutGame :=
  mkGame (gravity g) (stats g) (paddle g) (angle g) (angle_direction g)
    (angle_cycle_speed g) v (stages g) (current_stage g) (bricks g)
    (current_game_state g).
Definition set_current_stage (g : BreakoutGame) (v : Z) : BreakoutGame :=
  mkGame (gravity g) (stats g) (paddle g) (angle g) (angle_direction g)
    (angle_cycle_speed g) (ball g) (stages g) v (bricks g)
    (current_game_state g).
Definition set_bricks (g : BreakoutGame) (v : list Brick.t) : BreakoutGame :=
  mkGame (gravity g) (stats g) (paddle g) (angle g) (angle_direction g)
    (angle_cycle_speed g) (ball g) (stages g) (current_stage g) v
    (current_game_state g).
Definition set_current_game_state (g : BreakoutGame) (v : GameState) : BreakoutGame :=
  mkGame (gravity g) (stats g) (paddle g) (angle g) (angle_direction g)
    (angle_cycle_speed g) (ball g) (stages g) (current_stage g) (bricks g) v.

(** ** The collaborators of the game loop

    The methods of [Ball] and [Paddle] and the functions of [math] that
    [main.py] calls.  A method that mutates its object is a function to the new
    object; [detect_collision] returns its verdict together with the ball it
    leaves behind, and leaves its target as it was (the specification has it
    mutate the ball's velocity only). *)
Class Collaborators : Type := {
  (** [Paddle()] *)
  Paddle_new : Paddle.t;
  (** [Ball(gravity)] *)
  Ball_new : float -> Ball.t;
  (** [ball.update()] *)
  Ball_update : Ball.t -> Ball.t;
  (** [ball.detect_collision(target, is_paddle=...)] *)
  detect_collision : Ball.t -> Target -> bool -> bool * Ball.t;
  (** [paddle.update()], which reads the pointer *)
  Paddle_update : Input -> Paddle.t -> Paddle.t;
  (** [math.radians] at an integer number of degrees, [math.sin], [math.cos] *)
  radians : Z -> float;
  sin : float -> float;
  cos : float -> float
}.

(** ** The game loop *)

Section GameLoop.
Context `{Collaborators}.

(** [Brick(brick["x"], brick["y"], brick["brick_type"])] *)
Definition Brick_of_entry (e : Stage.entry) : Brick.t :=
  Brick.mk (Stage.x e) (Stage.y e) (Stage.brick_type e).

(** [_load_stage(stage_index)]: the stage table is indexed from 0.  On a
    table of the shape of [Stage.t] the subscripts [stage["bricks"]],
    [brick["x"]], [brick["y"]] and [brick["brick_type"]] find their keys, so
    that [self.stages[stage_index]] is the only one that can fail. *)
Definition _load_stage (stage_index : Z) (g : BreakoutGame) : result BreakoutGame :=
  let* stage := py_getitem (stages g) stage_index in
  Ok (set_bricks g (map Brick_of_entry (Stage.bricks stage))).

(** [_reset_ball()] *)
Definition _reset_ball (g : BreakoutGame) : BreakoutGame :=
  let b := Ball.clear_trails (ball g) in
  let b := Ball.set_y b (Paddle.y (paddle g) - Ball.r b * 2)%float in
  let g := set_ball g b in
  let g := set_angle g 0 in
  let g := set_angle_direction g 1 in
  let g := set_angle_cycle_speed g 2 in
  let b := Ball.set_speed_x (ball g) 0%float in
  let b := Ball.set_speed_y b 0%float in
  let b := Ball.set_out_of_bounds b false in
  set_ball g b.

(** [_next_stage()] *)
Definition _next_stage (g : BreakoutGame) : result BreakoutGame :=
  if current_stage g <? Z.of_nat (length (stages g)) then
    let g := set_current_stage g (current_stage g + 1) in
    let* g := _load_stage (current_stage g - 1) g in
    let g := _reset_ball g in
    Ok (set_current_game_state g READY)
  else
    Ok (set_current_game_state g WIN).

(** [_start_new_game()] *)
Definition _start_new_game (g : BreakoutGame) : result BreakoutGame :=
  let g := set_stats g GameStats_new in
  let g := set_current_stage g 1 in
  let* g := _load_stage (current_stage g - 1) g in
  let g := _reset_ball g in
  Ok (set_current_game_state g READY).

(** The speed magnitude of a launch, the literal [2.5] of [_launch_ball]. *)
Definition launch_speed : float := 2.5%float.

(** [_launch_ball()] *)
Definition _launch_ball (g : BreakoutGame) : BreakoutGame :=
  let angle_rad := radians (angle g) in
  let b := Ball.set_speed_x (ball g) (cos angle_rad * launch_speed)%float in
  let b := Ball.set_speed_y b (- sin angle_rad * launch_speed)%float in
  set_current_game_state (set_ball g b) RUNNING.

(** The brick loop of [_check_collision]:
    [for i in reversed(range(len(self.bricks)))], at the indices below [k].
    Next to the ball and the bricks it leaves, it returns the calls of
    [detect_collision] it made on bricks, in order: the index tested and the
    verdict.  That trace is a ghost of the embedding, not part of the game. *)
Fixpoint _check_collision_bricks (k : nat) (b : Ball.t) (bs : list Brick.t)
  : result (Ball.t * list Brick.t * list (nat * bool)) :=
  match k with
  | O => Ok (b, bs, [])
  | S i =>
      match bs !! i with
      | None => Raise IndexError
      | Some brick =>
          let '(collision, b') := detect_collision b (TBrick brick) false in
          if collision then Ok (b', delete i bs, [(i, true)])
          else
            let* r := _check_collision_bricks i b' bs in
            let '(b'', bs', calls) := r in
            Ok (b'', bs', (i, false) :: calls)
      end
  end.

(** [_check_collision()] *)
Definition _check_collision (g : BreakoutGame) : result BreakoutGame :=
  let '(_, b) := detect_collision (ball g) (TPaddle (paddle g)) true in
  let* r := _check_collision_bricks (length (bricks g)) b (bricks g) in
  let '(b', bs', _) := r in
  Ok (set_bricks (set_ball g b') bs').

(** [_check_input()] *)
Definition _check_input (inp : Input) (g : BreakoutGame) : result BreakoutGame :=
  let g :=
    if GameState_eqb (current_game_state g) READY then
      if btnp_MOUSE_BUTTON_LEFT inp || btnp_KEY_SPACE inp then _launch_ball g
      else g
    else g in
  if GameState_eqb (current_game_state g) GAME_OVER
     || GameState_eqb (current_game_state g) WIN then
    if btnp_KEY_RETURN inp then _start_new_game g else Ok g
  else Ok g.

(** [_update_ready_state()] *)
Definition _update_ready_state (g : BreakoutGame) : BreakoutGame :=
  let b := Ball.set_x (ball g)
             (Paddle.x (paddle g) + Paddle.w (paddle g) / 2 - Ball.r (ball g))%float in
  let g := set_ball g b in
  let g := set_angle g (angle g + angle_direction g * angle_cycle_speed g) in
  if (angle g =? 180) || (angle g =? 0) then
    set_angle_direction g (- angle_direction g)
  else g.

(** [_update_running_state()] *)
Definition _update_running_state (g : BreakoutGame) : result BreakoutGame :=
  let g := set_ball g (Ball_update (ball g)) in
  let* g := _check_collision g in
  let* g :=
    match bricks g with
    | [] =>
        if current_stage g =? Z.of_nat (length (stages g)) then
          Ok (set_current_game_state g WIN)
        else _next_stage g
    | _ :: _ => Ok g
    end in
  if Ball.out_of_bounds (ball g) then Ok (set_current_game_state g DROPPED)
  else Ok g.

(** [_update_dropped_state()] *)
Definition _update_dropped_state (g : BreakoutGame) : BreakoutGame :=
  let g := set_stats g (mkGameStats (score (stats g)) (lives (stats g) - 1)) in
  if lives (stats g) >? 0 then
    set_current_game_state (_reset_ball g) READY
  else
    set_current_game_state g GAME_OVER.

(** [_update()]: one frame. *)
Definition _update (inp : Input) (g : BreakoutGame) : result BreakoutGame :=
  let* g := _check_input inp g in
  let g := set_paddle g (Paddle_update inp (paddle g)) in
  match current_game_state g with
  | READY => Ok (_update_ready_state g)
  | RUNNING => _update_running_state g
  | DROPPED => Ok (_update_dropped_state g)
  | GAME_OVER => Ok g
  | WIN => Ok g
  end.

(** The attributes that [__init__] assigns before its first call of
    [_reset_ball], given the list that [_load_stages] read from the stage
    file.  Those that Python leaves unassigned until [_reset_ball] and
    [_start_new_game] run hold the values these calls assign. *)
Definition initial_attributes (stage_table : list Stage.t) : BreakoutGame :=
  let gravity := 0.007%float in
  mkGame gravity GameStats_new Paddle_new 0 1 2 (Ball_new gravity)
    stage_table 1 [] READY.

(** [__init__()], up to the call of [pyxel.run]. *)
Definition __init__ (stage_table : list Stage.t) : result BreakoutGame :=
  _start_new_game (_reset_ball (initial_attributes stage_table)).

(** Frames run one after the other, one [Input] each. *)
Fixpoint run (inps : list Input) (g : BreakoutGame) : result BreakoutGame :=
  match inps with
  | [] => Ok g
  | inp :: inps => let* g := _update inp g in run inps g
  end.

(** The states of a game: what [_start_new_game] leaves, and what any frame
    makes of such a state. *)
Inductive reachable : BreakoutGame -> Prop :=
| reachable_new g0 g :
    _start_new_game g0 = Ok g -> reachable g
| reachable_frame g inp g' :
    reachable g -> _update inp g = Ok g' -> reachable g'.

(** The ball after [detect_collision] has been called on the bricks of
    [l], one after the other, each call working on the ball the call before
    left. *)
Definition ball_after (b : Ball.t) (l : list Brick.t) : Ball.t :=
  fold_left (fun b brick => snd (detect_collision b (TBrick brick) false)) l b.

(** The ball that a scan from the highest index downward, started with the
    ball [b0], hands to the test of the brick of index [i]: the ball after the
    tests of the bricks above [i], highest index first. *)
Definition ball_at (b0 : Ball.t) (bs : list Brick.t) (i : nat) : Ball.t :=
  ball_after b0 (rev (drop (S i) bs)).

(** [n] calls of [_next_stage] in a row. *)
Fixpoint repeat_next_stage (n : nat) (g : BreakoutGame) : result BreakoutGame :=
  match n with
  | O => Ok g
  | S n => let* g := _next_stage g in repeat_next_stage n g
  end.

(** [n] calls of a state update in a row. *)
Fixpoint repeat_update (f : BreakoutGame -> BreakoutGame) (n : nat)
    (g : BreakoutGame) : BreakoutGame :=
  match n with
  | O => g
  | S n => f (repeat_update f n g)
  end.

End GameLoop.

(** ** Drawing

    [_draw] and the routines it calls only issue drawing calls; a frame's
    drawing is the list of these calls, in order.  [pyxel.width] and
    [pyxel.height] are the 450 and 200 of [_init_pyxel]. *)

(** The palette entries [main.py] names. *)
Inductive Colour : Set :=
| COLOR_BLACK | COLOR_WHITE | COLOR_RED | COLOR_ORANGE | COLOR_LIGHT_BLUE.

(** One drawing call: the four [pyxel] calls of [main.py], and the [draw]
    methods of the paddle, a brick and the ball. *)
Inductive DrawCall : Type :=
| Cls (col : Colour)
| Blt (x y img u v w h : Z) (colkey : Colour) (scale : float)
| Text (x y : Z) (s : string) (col : Colour)
| Line (x1 y1 x2 y2 : float) (col : Colour)
| Paddle_draw (p : Paddle.t)
| Brick_draw (b : Brick.t)
| Ball_draw (b : Ball.t).

Definition pyxel_width : Z := 450.
Definition pyxel_height : Z := 200.

Section Drawing.
Context `{Collaborators}.

(** [_draw_game_elements()] *)
Definition _draw_game_elements (g : BreakoutGame) : list DrawCall :=
  [Paddle_draw (paddle g)] ++ map Brick_draw (bricks g) ++ [Ball_draw (ball g)].

(** The [pyxel.blt] of the heart of index [i] in [_draw_ui]. *)
Definition heart (i : Z) : DrawCall :=
  let heart_x := 10 in
  let heart_y := 10 in
  let heart_spacing := 9 in
  let row_limit := 10 in
  let x := heart_x + (i mod row_limit) * heart_spacing in
  let y := heart_y + (i / row_limit) * heart_spacing in
  Blt x y 0 0 0 16 16 COLOR_ORANGE 0.5%float.

(** [_draw_ui()]: [range(self.stats.lives)] is empty for no or negative
    lives. *)
Definition _draw_ui (g : BreakoutGame) : list DrawCall :=
  map heart (seqZ 0 (lives (stats g)))
  ++ [Text 10 (pyxel_height - 20) ("Score: " +:+ pretty (score (stats g)))
        COLOR_BLACK].

(** [_draw_ready_state()], in the frame that [pyxel.frame_count] counts. *)
Definition _draw_ready_state (frame_count : Z) (g : BreakoutGame)
  : list DrawCall :=
  let angle_rad := radians (angle g) in
  let indicator_length := 25%float in
  let x_end := (Paddle.x (paddle g) + Paddle.w (paddle g) / 2
                + indicator_length * cos angle_rad)%float in
  let y_end := (Paddle.y (paddle g) - indicator_length * sin angle_rad)%float in
  _draw_game_elements g
  ++ _draw_ui g
  ++ [Line (Paddle.x (paddle g) + Paddle.w (paddle g) / 2)%float
        (Paddle.y (paddle g)) x_end y_end COLOR_RED]
  ++ (if (frame_count / 30) mod 2 =? 0 then
        [Text (pyxel_width / 2 - 50) (pyxel_height / 2)
           "Left Mouse Click to Launch!" COLOR_BLACK]
      else []).

(** [_draw_running_state()] *)
Definition _draw_running_state (g : BreakoutGame) : list DrawCall :=
  _draw_game_elements g ++ _draw_ui g.

(** [_draw_game_over_state()] *)
Definition _draw_game_over_state : list DrawCall :=
  [Blt 139 80 0 48 32 176 16 COLOR_WHITE 2%float;
   Text 175 130 "Press Enter to Play Again!" COLOR_BLACK].

(** [_draw()] *)
Definition _draw (frame_count : Z) (g : BreakoutGame) : list DrawCall :=
  Cls COLOR_LIGHT_BLUE ::
  match current_game_state g with
  | READY => _draw_ready_state frame_count g
  | RUNNING => _draw_running_state g
  | DROPPED => []
  | GAME_OVER => _draw_game_over_state
  | WIN =>
      [Text 10 (pyxel_height - 10) "Game Over! You've completed all stages!"
         COLOR_WHITE]
  end.

End Drawing.

(** ** A reference instance of the collaborators

    An executable [Ball] and [Paddle] to run the game loop on.  The playfield is
    the 450 by 200 window that [_init_pyxel] opens. *)

Module SpecModel.

Definition width : float := 450%float.
Definition height : float := 200%float.

(** The capacity of the trail and the size of a brick: constants of this
    instance. *)
Definition trail_capacity : nat := 10.
Definition brick_w : float := 16%float.
Definition brick_h : float := 8%float.

Fixpoint float_of_positive (p : positive) : float :=
  match p with
  | xH => 1%float
  | xO p => (2 * float_of_positive p)%float
  | xI p => (2 * float_of_positive p + 1)%float
  end.

Definition float_of_Z (z : Z) : float :=
  match z with
  | Z0 => 0%float
  | Zpos p => float_of_positive p
  | Zneg p => (- float_of_positive p)%float
  end.

(** Modelled from the spec: [Ball.update] (ball.py is not part of the sources
    at hand): "integrates gravity into vertical velocity, then advances
    position by velocity, then appends current position to the trail (evicting
    the oldest entry if the trail exceeds its capacity), then marks
    [out_of_bounds = true] if the body's vertical position exceeds the
    playfield's lower edge plus its radius". *)
Definition Ball_update (b : Ball.t) : Ball.t :=
  let vy := (Ball.speed_y b + Ball.gravity b)%float in
  let x' := (Ball.x b + Ball.speed_x b)%float in
  let y' := (Ball.y b + vy)%float in
  let tr := Ball.trail b ++ [(x', y')] in
  let tr := drop (length tr - trail_capacity)%nat tr in
  let oob := if (height + Ball.r b <? y')%float then true else Ball.out_of_bounds b in
  Ball.mk x' y' (Ball.r b) (Ball.speed_x b) vy (Ball.gravity b) tr oob.

(** The rectangle of a target: left, top, width, height. *)
Definition rect_of (t : Target) : float * float * float * float :=
  match t with
  | TPaddle p => (Paddle.x p, Paddle.y p, Paddle.w p, Paddle.h p)
  | TBrick b => (float_of_Z (Brick.x b), float_of_Z (Brick.y b), brick_w, brick_h)
  end.

(** Modelled from the spec: [Ball.detect_collision] (ball.py is not part of the
    sources at hand): "detect intersection between the ball's bounding box and
    a target rectangle, and on detection, mutate the ball's velocity to reflect
    it"; the reflection of this instance inverts the vertical velocity. *)
Definition detect_collision (b : Ball.t) (t : Target) (is_paddle : bool)
  : bool * Ball.t :=
  let '(tx, ty, tw, th) := rect_of t in
  let d := (2 * Ball.r b)%float in
  if ((Ball.x b <? tx + tw) && (tx <? Ball.x b + d)
      && (Ball.y b <? ty + th) && (ty <? Ball.y b + d))%float
  then (true, Ball.set_speed_y b (- Ball.speed_y b)%float)
  else (false, b).

(** Modelled from the spec: [Paddle.update] (paddle.py is not part of the
    sources at hand): "reads current pointer horizontal coordinate, clamps it
    into the valid range, and sets paddle x so its center tracks the pointer". *)
Definition Paddle_update (inp : Input) (p : Paddle.t) : Paddle.t :=
  let x := (float_of_Z (mouse_x inp) - Paddle.w p / 2)%float in
  let x := if (x <? 0)%float then 0%float else x in
  let x := if (width - Paddle.w p <? x)%float then (width - Paddle.w p)%float else x in
  Paddle.mk x (Paddle.y p) (Paddle.w p) (Paddle.h p).

(** [math.radians]: the argument times the double nearest to pi / 180, as
    CPython computes it. *)
Definition radians (deg : Z) : float :=
  (float_of_Z deg * 0x1.1df46a2529d39p-6)%float.

(** [math.sin] and [math.cos] at the radians of the even degrees from 0 to
    180, the only angles the indicator takes: the argument, then the doubles
    that CPython's [math.sin] and [math.cos] return there (glibc). *)
Definition trig_table : list (float * (float * float)) :=
  [
   (0, (0, 0x1.0000000000000p+0));
   (0x1.1df46a2529d39p-5, (0x1.1de58c9f7dc27p-5, 0x1.ffb0278bf0567p-1));
   (0x1.1df46a2529d39p-4, (0x1.1db8f6d6a5128p-4, 0x1.fec0b7170fff6p-1));
   (0x1.acee9f37bebd6p-4, (0x1.ac2609b3c576cp-4, 0x1.fd31f94f867c6p-1));
   (0x1.1df46a2529d39p-3, (0x1.1d06c968d9e19p-3, 0x1.fb046a930947ap-1));
   (0x1.657184ae74487p-3, (0x1.63a1a7e0b7389p-3, 0x1.f838b8c811c17p-1));
   (0x1.acee9f37bebd6p-3, (0x1.a9cd9ac4258f6p-3, 0x1.f4cfc327a0080p-1));
   (0x1.f46bb9c109324p-3, (0x1.ef74bf2e4b91dp-3, 0x1.f0ca99f79ba25p-1));
   (0x1.1df46a2529d39p-2, (0x1.1a40add328e29p-2, 0x1.ec2a7e35e7b80p-1));
   (0x1.41b2f769cf0e0p-2, (0x1.3c6ef372fe94fp-2, 0x1.e6f0e134454ffp-1));
   (0x1.657184ae74487p-2, (0x1.5e3a8748a0bf5p-2, 0x1.e11f642522d1cp-1));
   (0x1.893011f31982ep-2, (0x1.7f98deee59681p-2, 0x1.dab7d7997cb58p-1));
   (0x1.acee9f37bebd6p-2, (0x1.a07f921061ad1p-2, 0x1.d3bc3aeff7f95p-1));
   (0x1.d0ad2c7c63f7dp-2, (0x1.c0e45dabe05c8p-2, 0x1.cc2ebbb5638cap-1));
   (0x1.f46bb9c109324p-2, (0x1.e0bd274245079p-2, 0x1.c411b4f6d2708p-1));
   (0x1.0c152382d7365p-1, (0x1.fffffffffffffp-2, 0x1.bb67ae8584cabp-1));
   (0x1.1df46a2529d39p-1, (0x1.0f5193eacdd2ap-1, 0x1.b2335c2cda945p-1));
   (0x1.2fd3b0c77c70dp-1, (0x1.1e4e88411fd13p-1, 0x1.a8779cda8eea4p-1));
   (0x1.41b2f769cf0e0p-1, (0x1.2cf2304755a5ep-1, 0x1.9e3779b97f4a8p-1));
   (0x1.53923e0c21ab4p-1, (0x1.3b37fb1bdc939p-1, 0x1.9376253f463d1p-1));
   (0x1.657184ae74487p-1, (0x1.491b7523c161cp-1, 0x1.8836fa2cf5039p-1));
   (0x1.7750cb50c6e5bp-1, (0x1.5698496e20bd8p-1, 0x1.7c7d7a833bec2p-1));
   (0x1.893011f31982ep-1, (0x1.63aa430e07310p-1, 0x1.704d4e6a54d39p-1));
   (0x1.9b0f58956c202p-1, (0x1.704d4e6a54d38p-1, 0x1.63aa430e07310p-1));
   (0x1.acee9f37bebd6p-1, (0x1.7c7d7a833bec2p-1, 0x1.5698496e20bd8p-1));
   (0x1.becde5da115a9p-1, (0x1.8836fa2cf5039p-1, 0x1.491b7523c161dp-1));
   (0x1.d0ad2c7c63f7dp-1, (0x1.9376253f463d2p-1, 0x1.3b37fb1bdc939p-1));
   (0x1.e28c731eb6950p-1, (0x1.9e3779b97f4a8p-1, 0x1.2cf2304755a5ep-1));
   (0x1.f46bb9c109324p-1, (0x1.a8779cda8eea5p-1, 0x1.1e4e88411fd12p-1));
   (0x1.03258031ade7cp+0, (0x1.b2335c2cda945p-1, 0x1.0f5193eacdd2ap-1));
   (0x1.0c152382d7365p+0, (0x1.bb67ae8584caap-1, 0x1.0000000000001p-1));
   (0x1.1504c6d40084fp+0, (0x1.c411b4f6d2707p-1, 0x1.e0bd27424507ap-2));
   (0x1.1df46a2529d39p+0, (0x1.cc2ebbb5638cap-1, 0x1.c0e45dabe05c9p-2));
   (0x1.26e40d7653223p+0, (0x1.d3bc3aeff7f95p-1, 0x1.a07f921061ad1p-2));
   (0x1.2fd3b0c77c70dp+0, (0x1.dab7d7997cb58p-1, 0x1.7f98deee59680p-2));
   (0x1.38c35418a5bf6p+0, (0x1.e11f642522d1bp-1, 0x1.5e3a8748a0bf7p-2));
   (0x1.41b2f769cf0e0p+0, (0x1.e6f0e134454ffp-1, 0x1.3c6ef372fe950p-2));
   (0x1.4aa29abaf85cap+0, (0x1.ec2a7e35e7b80p-1, 0x1.1a40add328e29p-2));
   (0x1.53923e0c21ab4p+0, (0x1.f0ca99f79ba25p-1, 0x1.ef74bf2e4b91bp-3));
   (0x1.5c81e15d4af9dp+0, (0x1.f4cfc327a007fp-1, 0x1.a9cd9ac4258fap-3));
   (0x1.657184ae74487p+0, (0x1.f838b8c811c17p-1, 0x1.63a1a7e0b738cp-3));
   (0x1.6e6127ff9d971p+0, (0x1.fb046a930947ap-1, 0x1.1d06c968d9e1ap-3));
   (0x1.7750cb50c6e5bp+0, (0x1.fd31f94f867c6p-1, 0x1.ac2609b3c576bp-4));
   (0x1.80406ea1f0345p+0, (0x1.fec0b7170fff6p-1, 0x1.1db8f6d6a5123p-4));
   (0x1.893011f31982ep+0, (0x1.ffb0278bf0567p-1, 0x1.1de58c9f7dc37p-5));
   (0x1.921fb54442d18p+0, (0x1.0000000000000p+0, 0x1.1a62633145c07p-54));
   (0x1.9b0f58956c202p+0, (0x1.ffb0278bf0567p-1, (-0x1.1de58c9f7dc25p-5)));
   (0x1.a3fefbe6956ecp+0, (0x1.fec0b7170fff6p-1, (-0x1.1db8f6d6a512ap-4)));
   (0x1.acee9f37bebd6p+0, (0x1.fd31f94f867c6p-1, (-0x1.ac2609b3c5772p-4)));
   (0x1.b5de4288e80bfp+0, (0x1.fb046a930947ap-1, (-0x1.1d06c968d9e16p-3)));
   (0x1.becde5da115a9p+0, (0x1.f838b8c811c17p-1, (-0x1.63a1a7e0b7388p-3)));
   (0x1.c7bd892b3aa93p+0, (0x1.f4cfc327a0080p-1, (-0x1.a9cd9ac4258f6p-3)));
   (0x1.d0ad2c7c63f7dp+0, (0x1.f0ca99f79ba25p-1, (-0x1.ef74bf2e4b91fp-3)));
   (0x1.d99ccfcd8d466p+0, (0x1.ec2a7e35e7b80p-1, (-0x1.1a40add328e27p-2)));
   (0x1.e28c731eb6950p+0, (0x1.e6f0e13445500p-1, (-0x1.3c6ef372fe94ep-2)));
   (0x1.eb7c166fdfe3ap+0, (0x1.e11f642522d1cp-1, (-0x1.5e3a8748a0bf5p-2)));
   (0x1.f46bb9c109324p+0, (0x1.dab7d7997cb58p-1, (-0x1.7f98deee59682p-2)));
   (0x1.fd5b5d123280ep+0, (0x1.d3bc3aeff7f95p-1, (-0x1.a07f921061ad2p-2)));
   (0x1.03258031ade7cp+1, (0x1.cc2ebbb5638c9p-1, (-0x1.c0e45dabe05cap-2)));
   (0x1.079d51da428f1p+1, (0x1.c411b4f6d2707p-1, (-0x1.e0bd27424507bp-2)));
   (0x1.0c152382d7365p+1, (0x1.bb67ae8584cabp-1, (-0x1.ffffffffffffcp-2)));
   (0x1.108cf52b6bddap+1, (0x1.b2335c2cda946p-1, (-0x1.0f5193eacdd29p-1)));
   (0x1.1504c6d40084fp+1, (0x1.a8779cda8eea5p-1, (-0x1.1e4e88411fd11p-1)));
   (0x1.197c987c952c4p+1, (0x1.9e3779b97f4a8p-1, (-0x1.2cf2304755a5dp-1)));
   (0x1.1df46a2529d39p+1, (0x1.9376253f463d2p-1, (-0x1.3b37fb1bdc939p-1)));
   (0x1.226c3bcdbe7aep+1, (0x1.8836fa2cf5039p-1, (-0x1.491b7523c161dp-1)));
   (0x1.26e40d7653223p+1, (0x1.7c7d7a833bec2p-1, (-0x1.5698496e20bd8p-1)));
   (0x1.2b5bdf1ee7c98p+1, (0x1.704d4e6a54d38p-1, (-0x1.63aa430e07311p-1)));
   (0x1.2fd3b0c77c70dp+1, (0x1.63aa430e0730fp-1, (-0x1.704d4e6a54d39p-1)));
   (0x1.344b827011181p+1, (0x1.5698496e20bd9p-1, (-0x1.7c7d7a833bec0p-1)));
   (0x1.38c35418a5bf6p+1, (0x1.491b7523c161ep-1, (-0x1.8836fa2cf5038p-1)));
   (0x1.3d3b25c13a66bp+1, (0x1.3b37fb1bdc93ap-1, (-0x1.9376253f463d1p-1)));
   (0x1.41b2f769cf0e0p+1, (0x1.2cf2304755a5fp-1, (-0x1.9e3779b97f4a7p-1)));
   (0x1.462ac91263b55p+1, (0x1.1e4e88411fd13p-1, (-0x1.a8779cda8eea4p-1)));
   (0x1.4aa29abaf85cap+1, (0x1.0f5193eacdd2ap-1, (-0x1.b2335c2cda945p-1)));
   (0x1.4f1a6c638d03fp+1, (0x1.fffffffffffffp-2, (-0x1.bb67ae8584cabp-1)));
   (0x1.53923e0c21ab4p+1, (0x1.e0bd274245077p-2, (-0x1.c411b4f6d2708p-1)));
   (0x1.580a0fb4b6529p+1, (0x1.c0e45dabe05c6p-2, (-0x1.cc2ebbb5638cap-1)));
   (0x1.5c81e15d4af9dp+1, (0x1.a07f921061ad5p-2, (-0x1.d3bc3aeff7f94p-1)));
   (0x1.60f9b305dfa12p+1, (0x1.7f98deee59685p-2, (-0x1.dab7d7997cb57p-1)));
   (0x1.657184ae74487p+1, (0x1.5e3a8748a0bf8p-2, (-0x1.e11f642522d1bp-1)));
   (0x1.69e9565708efcp+1, (0x1.3c6ef372fe951p-2, (-0x1.e6f0e134454ffp-1)));
   (0x1.6e6127ff9d971p+1, (0x1.1a40add328e2ap-2, (-0x1.ec2a7e35e7b80p-1)));
   (0x1.72d8f9a8323e6p+1, (0x1.ef74bf2e4b91dp-3, (-0x1.f0ca99f79ba25p-1)));
   (0x1.7750cb50c6e5bp+1, (0x1.a9cd9ac4258f5p-3, (-0x1.f4cfc327a0080p-1)));
   (0x1.7bc89cf95b8d0p+1, (0x1.63a1a7e0b7387p-3, (-0x1.f838b8c811c17p-1)));
   (0x1.80406ea1f0345p+1, (0x1.1d06c968d9e15p-3, (-0x1.fb046a930947ap-1)));
   (0x1.84b8404a84db9p+1, (0x1.ac2609b3c577fp-4, (-0x1.fd31f94f867c6p-1)));
   (0x1.893011f31982ep+1, (0x1.1db8f6d6a5138p-4, (-0x1.fec0b7170fff6p-1)));
   (0x1.8da7e39bae2a3p+1, (0x1.1de58c9f7dc40p-5, (-0x1.ffb0278bf0567p-1)));
   (0x1.921fb54442d18p+1, (0x1.1a62633145c07p-53, (-0x1.0000000000000p+0)))
  ]%float.

Fixpoint trig_lookup (a : float) (t : list (float * (float * float)))
  : option (float * float) :=
  match t with
  | [] => None
  | (k, v) :: t => if (a =? k)%float then Some v else trig_lookup a t
  end.

(** Outside the table, a polynomial stands in for the library function. *)
Definition sin_polynomial (a : float) : float :=
  let q := (a * a)%float in
  (a * (1 - q / 6 * (1 - q / 20 * (1 - q / 42 * (1 - q / 72 * (1 - q / 110 *
     (1 - q / 156 * (1 - q / 210))))))))%float.

Definition cos_polynomial (a : float) : float :=
  let q := (a * a)%float in
  (1 - q / 2 * (1 - q / 12 * (1 - q / 30 * (1 - q / 56 * (1 - q / 90 *
     (1 - q / 132 * (1 - q / 182)))))))%float.

Definition sin (a : float) : float :=
  match trig_lookup a trig_table with
  | Some (s, _) => s
  | None => sin_polynomial a
  end.

Definition cos (a : float) : float :=
  match trig_lookup a trig_table with
  | Some (_, c) => c
  | None => cos_polynomial a
  end.

#[export] Instance collaborators : Collaborators :=
  Build_Collaborators
    (Paddle.mk 205 180 40 5)
    (fun g => Ball.mk 0 0 2 0 0 g [] false)
    Ball_update detect_collision Paddle_update radians sin cos.

(** No key pressed, pointer at the given column. *)
Definition idle (mx : Z) : Input := mkInput false false false mx.
(** The launch key pressed. *)
Definition press_launch (mx : Z) : Input := mkInput false true false mx.
(** The restart key pressed. *)
Definition press_restart (mx : Z) : Input := mkInput false false true mx.

(** The game of a result that is known to be one. *)
Definition the (r : result BreakoutGame) : BreakoutGame :=
  match r with
  | Ok g => g
  | Raise _ => initial_attributes []
  end.

(** A stage table with one stage of one brick, in the top left corner. *)
Definition one_brick_table : list Stage.t :=
  [Stage.mk [Stage.mkEntry 10 10 1]].

(** One frame of aiming, the launch at two degrees, and the flight of the
    ball past the paddle and below the lower edge of the playfield. *)
Definition drop_inputs : list Input :=
  idle 225 :: press_launch 225 :: repeat (idle 225) 98.

(** The fresh game on [one_brick_table] after [drop_inputs]: the ball has just
    dropped. *)
Definition dropped_game : BreakoutGame :=
  the (let* g := __init__ one_brick_table in run drop_inputs g).

(** One frame later. *)
Definition game_over_game : BreakoutGame :=
  the (_update (idle 225) dropped_game).

(** A stage table whose only brick lies across the lower edge, where the
    falling ball meets it in the frame in which it leaves the playfield. *)
Definition floor_brick_table : list Stage.t :=
  [Stage.mk [Stage.mkEntry 465 206 1]].

(** The same flight, one frame shorter. *)
Definition last_brick_inputs : list Input :=
  idle 225 :: press_launch 225 :: repeat (idle 225) 97.

(** The fresh game on [floor_brick_table] after [last_brick_inputs]: RUNNING,
    one frame before the ball reaches the brick and the lower edge. *)
Definition last_brick_game : BreakoutGame :=
  the (let* g := __init__ floor_brick_table in run last_brick_inputs g).

(** That game after the paddle update of its next frame. *)
Definition last_brick_frame : BreakoutGame :=
  set_paddle last_brick_game
    (Paddle_update (idle 225) (paddle last_brick_game)).

(** The same table with a second stage behind the first, and the same
    flight on it. *)
Definition floor_brick_two_stage_table : list Stage.t :=
  [Stage.mk [Stage.mkEntry 465 206 1]; Stage.mk [Stage.mkEntry 10 10 1]].

Definition last_brick_two_stage_game : BreakoutGame :=
  the (let* g := __init__ floor_brick_two_stage_table in
       run last_brick_inputs g).

(** The fresh game on [one_brick_table]. *)
Definition fresh_game : BreakoutGame := the (__init__ one_brick_table).

(** A stage table whose only stage has no brick, and the fresh game on it
    with the ball launched. *)
Definition empty_table : list Stage.t := [Stage.mk []].

Definition launched_empty : BreakoutGame :=
  _launch_ball (the (__init__ empty_table)).

(** A stage table whose first stage has no brick and whose second has one,
    and the fresh game on it with the ball launched. *)
Definition two_stage_table : list Stage.t :=
  [Stage.mk []; Stage.mk [Stage.mkEntry 10 10 1]].

Definition launched_two_stage : BreakoutGame :=
  _launch_ball (the (__init__ two_stage_table)).

(** The fresh game on [one_brick_table] with the ball launched. *)
Definition launched_one_brick : BreakoutGame := _launch_ball fresh_game.

(** A RUNNING game with three bricks, of which the ball overlaps the first
    two. *)
Definition scan_game : BreakoutGame :=
  mkGame 0.007 GameStats_new (Paddle.mk 205 180 40 5) 0 1 2
    (Ball.mk 100 100 2 0 1 0.007 [] false)
    [Stage.mk [Stage.mkEntry 98 98 1; Stage.mkEntry 98 99 1;
               Stage.mkEntry 300 20 1]]
    1
    [Brick.mk 98 98 1; Brick.mk 98 99 1; Brick.mk 300 20 1]
    RUNNING.


End SpecModel.

(** ** Vocabulary of the statements *)

(** The trace of a scan that tested the indices from [hi - 1] down to [lo]
    and found no collision. *)
Definition misses (lo hi : nat) : list (nat * bool) :=
  map (fun j => (j, false)) (rev (seq lo (hi - lo))).

(** The launch input of [_check_input]: the left button or the space bar. *)
Definition launch_pressed (inp : Input) : bool :=
  btnp_MOUSE_BUTTON_LEFT inp || btnp_KEY_SPACE inp.

(** The two states in which no update routine runs. *)
Definition terminal (s : GameState) : Prop := s = GAME_OVER \/ s = WIN.

(** The indicator sweeps the even angles of the half turn, two degrees a
    frame, and points inwards at both ends. *)
Definition indicator_ok (g : BreakoutGame) : Prop :=
  angle_cycle_speed g = 2
  /\ 0 <= angle g <= 180
  /\ (exists k, angle g = 2 * k)
  /\ (angle_direction g = 1 \/ angle_direction g = -1)
  /\ (angle g = 0 -> angle_direction g = 1)
  /\ (angle g = 180 -> angle_direction g = -1).

(** The stage counter names a stage of the table. *)
Definition stage_ok (g : BreakoutGame) : Prop :=
  1 <= current_stage g <= Z.of_nat (length (stages g)).

(** What the statistics of a game can be. *)
Definition stats_ok (g : BreakoutGame) : Prop :=
  score (stats g) = 0
  /\ ((lives (stats g) = 0 /\ current_game_state g <> GAME_OVER)
      \/ (lives (stats g) = -1 /\ current_game_state g = GAME_OVER)).

Definition game_invariant (g : BreakoutGame) : Prop :=
  indicator_ok g /\ stage_ok g /\ stats_ok g.

(** The bricks after a step are no more than before, or those of a stage. *)
Definition bricks_step (g g' : BreakoutGame) : Prop :=
  (length (bricks g') <= length (bricks g))%nat
  \/ (exists (k : nat) (st : Stage.t),
        stages g !! k = Some st
        /\ bricks g' = map Brick_of_entry (Stage.bricks st)).

(** The out-of-bounds flag is up exactly in DROPPED and GAME_OVER, and a
    READY ball is at rest. *)
Definition flags_ok (g : BreakoutGame) : Prop :=
  (Ball.out_of_bounds (ball g) = true <->
   current_game_state g = DROPPED \/ current_game_state g = GAME_OVER)
  /\ (current_game_state g = READY ->
      Ball.speed_x (ball g) = 0%float /\ Ball.speed_y (ball g) = 0%float).

(** The bricks are what is left of the layout of the current stage; a
    RUNNING game has bricks left, a won game has none and is at the last
    stage. *)
Definition field_ok (g : BreakoutGame) : Prop :=
  (exists st : Stage.t,
     stages g !! Z.to_nat (current_stage g - 1) = Some st
     /\ bricks g `sublist_of` map Brick_of_entry (Stage.bricks st))
  /\ (current_game_state g = RUNNING -> bricks g <> [])
  /\ (current_game_state g = WIN ->
      bricks g = []
      /\ current_stage g = Z.of_nat (length (stages g))).

(** The game states that can follow one another from one frame to the
    next. *)
Definition may_follow (s s' : GameState) : bool :=
  match s, s' with
  | READY, (READY | RUNNING | DROPPED | WIN) => true
  | RUNNING, (RUNNING | READY | DROPPED | WIN) => true
  | DROPPED, (READY | GAME_OVER) => true
  | GAME_OVER, (GAME_OVER | READY) => true
  | WIN, (WIN | READY) => true
  | _, _ => false
  end.

(** The indicator after [n] READY updates from a reset, in closed form: a
    triangle wave of period 180 frames. *)
Definition sweep_angle (n : nat) : Z :=
  let m := Z.of_nat n mod 180 in
  if m <=? 90 then 2 * m else 360 - 2 * m.

Definition sweep_direction (n : nat) : Z :=
  if Z.of_nat n mod 180 <? 90 then 1 else -1.

(** The drawing calls of a kind in a frame's drawing. *)
Definition is_Blt (d : DrawCall) : bool :=
  match d with Blt _ _ _ _ _ _ _ _ _ => true | _ => false end.

Definition is_Brick_draw (d : DrawCall) : bool :=
  match d with Brick_draw _ => true | _ => false end.

Definition is_game_element (d : DrawCall) : bool :=
  match d with
  | Paddle_draw _ | Brick_draw _ | Ball_draw _ => true
  | _ => false
  end.

(** ** Basic facts *)

Lemma bind_Ok {A B : Type} (m : result A) (k : A -> result B) (b : B) :
  bind m k = Ok b -> exists a, m = Ok a /\ k a = Ok b.
Proof. destruct m as [a|e]; simpl; [eauto | discriminate]. Qed.

Lemma py_getitem_nonneg {A : Type} (l : list A) (i : Z) :
  0 <= i ->
  py_getitem l i =
    match l !! Z.to_nat i with Some a => Ok a | None => Raise IndexError end.
Proof.
  intros Hi. unfold py_getitem.
  destruct (Z.ltb_spec i 0) as [?|_]; [lia|].
  destruct (Z.leb_spec 0 i) as [_|?]; [|lia]. simpl.
  destruct (Z.ltb_spec i (Z.of_nat (length l))) as [Hlt|Hge]; [reflexivity|].
  rewrite (lookup_ge_None_2 l (Z.to_nat i)) by lia. reflexivity.
Qed.

Lemma py_getitem_Ok_lookup {A : Type} (l : list A) (i : Z) (a : A) :
  0 <= i -> py_getitem l i = Ok a -> l !! Z.to_nat i = Some a.
Proof.
  intros Hi. rewrite py_getitem_nonneg by assumption.
  destruct (l !! Z.to_nat i); intros E; [congruence | discriminate].
Qed.

(** Multiplication of binary64 floats commutes: [r * 2] in the source is the
    [2 * r] of the specification. *)
Lemma SFmul_comm (prec emax : Z) (a b : spec_float) :
  SFmul prec emax a b = SFmul prec emax b a.
Proof.
  destruct a as [sa|sa| |sa ma ea], b as [sb|sb| |sb mb eb]; simpl;
    try reflexivity; try (rewrite (xorb_comm sa sb); reflexivity).
  rewrite (xorb_comm sa sb), (Pos.mul_comm ma mb), (Z.add_comm ea eb).
  reflexivity.
Qed.

Lemma float_mul_comm (a b : float) : (a * b)%float = (b * a)%float.
Proof. apply Prim2SF_inj. rewrite !mul_spec. apply SFmul_comm. Qed.

Lemma GameState_eqb_eq (a b : GameState) : GameState_eqb a b = true <-> a = b.
Proof. destruct a, b; simpl; split; intros E; congruence. Qed.

Section Facts.
Context `{Collaborators}.

(** *** Stage loading *)

Lemma _load_stage_Ok (i : Z) (g g' : BreakoutGame) :
  0 <= i -> _load_stage i g = Ok g' ->
  exists st, stages g !! Z.to_nat i = Some st
             /\ g' = set_bricks g (map Brick_of_entry (Stage.bricks st)).
Proof.
  intros Hi E. unfold _load_stage in E.
  apply bind_Ok in E as (st & Est & E).
  apply py_getitem_Ok_lookup in Est; [|assumption].
  exists st. split; [assumption | congruence].
Qed.

Lemma _load_stage_in_range (i : Z) (g : BreakoutGame) (st : Stage.t) :
  0 <= i -> stages g !! Z.to_nat i = Some st ->
  _load_stage i g = Ok (set_bricks g (map Brick_of_entry (Stage.bricks st))).
Proof.
  intros Hi E. unfold _load_stage.
  rewrite py_getitem_nonneg by assumption. rewrite E. reflexivity.
Qed.

Lemma _start_new_game_Ok (g0 g : BreakoutGame) :
  _start_new_game g0 = Ok g ->
  exists st, stages g0 !! 0%nat = Some st
    /\ g = set_current_game_state
             (_reset_ball
                (set_bricks (set_current_stage (set_stats g0 GameStats_new) 1)
                   (map Brick_of_entry (Stage.bricks st)))) READY.
Proof.
  intros E. unfold _start_new_game in E.
  apply bind_Ok in E as (g1 & E1 & E).
  apply _load_stage_Ok in E1 as (st & Hst & ->); [|simpl; lia].
  exists st. split; [exact Hst | congruence].
Qed.

Lemma _start_new_game_in_range (g0 : BreakoutGame) (st : Stage.t) :
  stages g0 !! 0%nat = Some st ->
  _start_new_game g0 =
    Ok (set_current_game_state
          (_reset_ball
             (set_bricks (set_current_stage (set_stats g0 GameStats_new) 1)
                (map Brick_of_entry (Stage.bricks st)))) READY).
Proof.
  intros E. unfold _start_new_game.
  rewrite (_load_stage_in_range _ _ st); [reflexivity | simpl; lia | exact E].
Qed.

Lemma _next_stage_advance (g : BreakoutGame) :
  0 <= current_stage g < Z.of_nat (length (stages g)) ->
  exists st, stages g !! Z.to_nat (current_stage g) = Some st
    /\ _next_stage g =
         Ok (set_current_game_state
               (_reset_ball
                  (set_bricks (set_current_stage g (current_stage g + 1))
                     (map Brick_of_entry (Stage.bricks st)))) READY).
Proof.
  intros [H0 Hlt].
  destruct (lookup_lt_is_Some_2 (stages g) (Z.to_nat (current_stage g)))
    as [st Hst]; [lia|].
  exists st. split; [exact Hst|].
  unfold _next_stage.
  destruct (Z.ltb_spec (current_stage g) (Z.of_nat (length (stages g))));
    [|lia].
  rewrite (_load_stage_in_range _ _ st); [reflexivity | simpl; lia |].
  simpl. replace (current_stage g + 1 - 1) with (current_stage g) by lia.
  exact Hst.
Qed.

Lemma _next_stage_last (g : BreakoutGame) :
  Z.of_nat (length (stages g)) <= current_stage g ->
  _next_stage g = Ok (set_current_game_state g WIN).
Proof.
  intros Hge. unfold _next_stage.
  destruct (Z.ltb_spec (current_stage g) (Z.of_nat (length (stages g))));
    [lia | reflexivity].
Qed.

(** *** The brick scan *)

Lemma misses_S (lo hi : nat) :
  (lo <= hi)%nat -> misses lo (S hi) = (hi, false) :: misses lo hi.
Proof.
  intros Hle. unfold misses.
  replace (S hi - lo)%nat with (S (hi - lo)) by lia.
  rewrite seq_S, rev_app_distr. simpl.
  replace (lo + (hi - lo))%nat with hi by lia. reflexivity.
Qed.

Lemma misses_nil (k : nat) : misses k k = [].
Proof. unfold misses. replace (k - k)%nat with 0%nat by lia. reflexivity. Qed.

Lemma misses_ge (lo hi j : nat) (v : bool) :
  In (j, v) (misses lo hi) -> (lo <= j < hi)%nat /\ v = false.
Proof.
  unfold misses. intros Hin. apply in_map_iff in Hin as (i & E & Hi).
  inversion E; subst. apply in_rev, in_seq in Hi. split; [lia | reflexivity].
Qed.

Lemma _check_collision_bricks_spec (k : nat) (b : Ball.t) (bs : list Brick.t) :
  (k <= length bs)%nat ->
  exists b' bs' calls,
    _check_collision_bricks k b bs = Ok (b', bs', calls)
    /\ ((bs' = bs /\ calls = misses 0 k)
        \/ (exists i brick bi,
              (i < k)%nat
              /\ bs !! i = Some brick
              /\ detect_collision bi (TBrick brick) false = (true, b')
              /\ bs' = delete i bs
              /\ calls = misses (S i) k ++ [(i, true)])).
Proof.
  revert b. induction k as [|k IH]; intros b Hk.
  - exists b, bs, []. split; [reflexivity|]. left. split; reflexivity.
  - simpl. destruct (lookup_lt_is_Some_2 bs k) as [brick Hbrick]; [lia|].
    rewrite Hbrick.
    destruct (detect_collision b (TBrick brick) false) as [c b1] eqn:Ed.
    destruct c.
    + exists b1, (delete k bs), [(k, true)]. split; [reflexivity|].
      right. exists k, brick, b. rewrite misses_nil.
      repeat split; try assumption; lia.
    + destruct (IH b1) as (b' & bs' & calls & E & Hcases); [lia|].
      rewrite E. simpl. exists b', bs', ((k, false) :: calls).
      split; [reflexivity|].
      destruct Hcases as [[-> ->] | (i & br & bi & Hi & Hbr & Hd & -> & ->)].
      * left. split; [reflexivity|]. rewrite misses_S by lia. reflexivity.
      * right. exists i, br, bi. rewrite misses_S by lia.
        repeat split; try assumption; lia.
Qed.

(** [_check_collision] returns, and touches the ball and the bricks only. *)
Lemma _check_collision_Ok (g : BreakoutGame) :
  exists b' bs',
    _check_collision g = Ok (set_bricks (set_ball g b') bs')
    /\ (length bs' <= length (bricks g))%nat.
Proof.
  unfold _check_collision.
  destruct (detect_collision (ball g) (TPaddle (paddle g)) true) as [c b0].
  destruct (_check_collision_bricks_spec (length (bricks g)) b0 (bricks g))
    as (b' & bs' & calls & E & Hcases); [lia|].
  rewrite E. simpl. exists b', bs'. split; [reflexivity|].
  destruct Hcases as [[-> _] | (i & br & bi & Hi & Hbr & _ & -> & _)]; [lia|].
  rewrite length_delete by eauto. lia.
Qed.

(** The scan against the verdicts of [detect_collision] themselves: below
    [k] either every brick answers false to the ball the scan hands it, or the
    brick of the highest index that answers true is the one deleted. *)
Lemma _check_collision_bricks_verdicts (k : nat) (b : Ball.t)
    (bs : list Brick.t) :
  (k <= length bs)%nat ->
  exists b' bs' calls,
    _check_collision_bricks k b bs = Ok (b', bs', calls)
    /\ (((forall (j : nat) (brick : Brick.t),
            (j < k)%nat -> bs !! j = Some brick ->
            fst (detect_collision (ball_at b (take k bs) j) (TBrick brick)
                   false) = false)
         /\ bs' = bs
         /\ b' = ball_after b (rev (take k bs))
         /\ calls = misses 0 k)
        \/ (exists (i : nat) (brick : Brick.t),
              (i < k)%nat
              /\ bs !! i = Some brick
              /\ detect_collision (ball_at b (take k bs) i) (TBrick brick)
                   false = (true, b')
              /\ (forall (j : nat) (brick' : Brick.t),
                    (i < j < k)%nat -> bs !! j = Some brick' ->
                    fst (detect_collision (ball_at b (take k bs) j)
                           (TBrick brick') false) = false)
              /\ bs' = delete i bs
              /\ calls = misses (S i) k ++ [(i, true)])).
Proof.
  revert b. induction k as [|k IH]; intros b Hk.
  - exists b, bs, []. split; [reflexivity|]. left.
    split; [intros j brick Hj; lia|].
    split; [reflexivity|]. split; reflexivity.
  - cbn [_check_collision_bricks].
    destruct (lookup_lt_is_Some_2 bs k) as [brick Hbrick]; [lia|].
    rewrite Hbrick.
    assert (Etake : take (S k) bs = take k bs ++ [brick])
      by (apply take_S_r; exact Hbrick).
    assert (Hlen : length (take k bs) = k) by (rewrite length_take; lia).
    assert (Htop : ball_at b (take (S k) bs) k = b).
    { unfold ball_at. rewrite drop_ge by (rewrite length_take; lia).
      reflexivity. }
    assert (Hbelow : forall j : nat, (j < k)%nat ->
              ball_at b (take (S k) bs) j
              = ball_at (snd (detect_collision b (TBrick brick) false))
                  (take k bs) j).
    { intros j Hj. unfold ball_at, ball_after.
      rewrite Etake, drop_app_le by lia.
      rewrite rev_app_distr. reflexivity. }
    destruct (detect_collision b (TBrick brick) false) as [c b1] eqn:Ed.
    destruct c.
    + exists b1, (delete k bs), [(k, true)]. split; [reflexivity|].
      right. exists k, brick. rewrite misses_nil, Htop.
      split; [lia|]. split; [exact Hbrick|]. split; [exact Ed|].
      split; [intros j brick' Hj; lia|]. split; reflexivity.
    + destruct (IH b1) as (b' & bs' & calls & E & Hcases); [lia|].
      rewrite E. cbn [bind]. exists b', bs', ((k, false) :: calls).
      split; [reflexivity|]. cbn [snd] in Hbelow.
      destruct Hcases
        as [(Hall & -> & -> & ->)
           | (i & br & Hi & Hbr & Hd & Habove & -> & ->)].
      * left. split; [|split; [reflexivity|split]].
        -- intros j brick' Hj Hlk.
           destruct (Nat.eq_dec j k) as [->|Hne].
           ++ rewrite Htop. rewrite Hbrick in Hlk.
              injection Hlk as <-. rewrite Ed. reflexivity.
           ++ rewrite Hbelow by lia. apply Hall; [lia | exact Hlk].
        -- unfold ball_after. rewrite Etake, rev_app_distr.
           cbn [rev app fold_left]. rewrite Ed. reflexivity.
        -- rewrite misses_S by lia. reflexivity.
      * right. exists i, br. rewrite Hbelow by lia.
        split; [lia|]. split; [exact Hbr|]. split; [exact Hd|].
        split; [|split; [reflexivity|]].
        -- intros j brick' Hj Hlk.
           destruct (Nat.eq_dec j k) as [->|Hne].
           ++ rewrite Htop. rewrite Hbrick in Hlk.
              injection Hlk as <-. rewrite Ed. reflexivity.
           ++ rewrite Hbelow by lia. apply Habove; [lia | exact Hlk].
        -- rewrite misses_S by lia. reflexivity.
Qed.

(** *** One frame, state by state *)

Lemma _update_READY_idle (inp : Input) (g : BreakoutGame) :
  current_game_state g = READY -> launch_pressed inp = false ->
  _update inp g =
    Ok (_update_ready_state (set_paddle g (Paddle_update inp (paddle g)))).
Proof.
  intros Hs Hl. destruct g; simpl in Hs; subst.
  unfold _update, _check_input, launch_pressed in *.
  cbn [current_game_state GameState_eqb]. rewrite Hl. reflexivity.
Qed.

Lemma _update_READY_launch (inp : Input) (g : BreakoutGame) :
  current_game_state g = READY -> launch_pressed inp = true ->
  _update inp g =
    _update_running_state
      (set_paddle (_launch_ball g) (Paddle_update inp (paddle g))).
Proof.
  intros Hs Hl. destruct g; simpl in Hs; subst.
  unfold _update, _check_input, launch_pressed in *.
  cbn [current_game_state GameState_eqb]. rewrite Hl. reflexivity.
Qed.

Lemma _update_RUNNING (inp : Input) (g : BreakoutGame) :
  current_game_state g = RUNNING ->
  _update inp g =
    _update_running_state (set_paddle g (Paddle_update inp (paddle g))).
Proof. intros Hs. destruct g; simpl in Hs; subst. reflexivity. Qed.

Lemma _update_DROPPED (inp : Input) (g : BreakoutGame) :
  current_game_state g = DROPPED ->
  _update inp g =
    Ok (_update_dropped_state (set_paddle g (Paddle_update inp (paddle g)))).
Proof. intros Hs. destruct g; simpl in Hs; subst. reflexivity. Qed.

Lemma _update_terminal_idle (inp : Input) (g : BreakoutGame) :
  terminal (current_game_state g) -> btnp_KEY_RETURN inp = false ->
  _update inp g = Ok (set_paddle g (Paddle_update inp (paddle g))).
Proof.
  intros Hs Hr. destruct g; simpl in Hs.
  destruct Hs; subst; unfold _update, _check_input;
    cbn [current_game_state GameState_eqb orb]; rewrite Hr; reflexivity.
Qed.

Lemma _update_terminal_restart (inp : Input) (g : BreakoutGame) :
  terminal (current_game_state g) -> btnp_KEY_RETURN inp = true ->
  _update inp g =
    (let* g1 := _start_new_game g in
     Ok (_update_ready_state (set_paddle g1 (Paddle_update inp (paddle g1))))).
Proof.
  intros Hs Hr.
  assert (E : _check_input inp g = _start_new_game g).
  { destruct g; simpl in Hs.
    destruct Hs; subst; unfold _check_input;
      cbn [current_game_state GameState_eqb orb]; rewrite Hr; reflexivity. }
  unfold _update. rewrite E.
  destruct (_start_new_game g) as [g1|e] eqn:E1; [|reflexivity].
  apply _start_new_game_Ok in E1 as (st0 & _ & ->). reflexivity.
Qed.
(** The RUNNING update, after the collision resolver has returned the ball
    [b'] and the bricks [bs']. *)
Lemma _update_running_state_cases (g : BreakoutGame) :
  exists b' bs',
    let g1 := set_bricks (set_ball g b') bs' in
    _check_collision (set_ball g (Ball_update (ball g))) = Ok g1
    /\ (length bs' <= length (bricks g))%nat
    /\ _update_running_state g =
         (let* g2 :=
            match bs' with
            | [] =>
                if current_stage g =? Z.of_nat (length (stages g)) then
                  Ok (set_current_game_state g1 WIN)
                else _next_stage g1
            | _ :: _ => Ok g1
            end in
          Ok (if Ball.out_of_bounds (ball g2)
              then set_current_game_state g2 DROPPED else g2)).
Proof.
  destruct (_check_collision_Ok (set_ball g (Ball_update (ball g))))
    as (b' & bs' & E & Hlen).
  exists b', bs'. cbn zeta. split; [exact E|]. split; [exact Hlen|].
  unfold _update_running_state. rewrite E. cbn [bind].
  cbn [bricks set_bricks set_ball current_stage stages].
  destruct bs' as [|br bs'].
  - destruct (current_stage g =? Z.of_nat (length (stages g))).
    + cbn [bind]. destruct (Ball.out_of_bounds _); reflexivity.
    + destruct (_next_stage _) as [g2|e]; cbn [bind]; [|reflexivity].
      destruct (Ball.out_of_bounds _); reflexivity.
  - cbn [bind]. destruct (Ball.out_of_bounds _); reflexivity.
Qed.

(** The last check of the RUNNING update has the last word: when the ball
    is out of bounds after collision resolution, the update of a game whose
    last stage has just been cleared returns in state DROPPED. *)
Lemma _update_running_state_cleared_out_of_bounds (g g1 : BreakoutGame) :
  _check_collision (set_ball g (Ball_update (ball g))) = Ok g1 ->
  bricks g1 = [] ->
  current_stage g1 = Z.of_nat (length (stages g1)) ->
  Ball.out_of_bounds (ball g1) = true ->
  _update_running_state g = Ok (set_current_game_state g1 DROPPED).
Proof.
  intros E Hb Hc Ho. unfold _update_running_state. cbn zeta.
  rewrite E. cbn [bind]. rewrite Hb, Hc, Z.eqb_refl. cbn [bind].
  cbn [ball set_current_game_state]. rewrite Ho. reflexivity.
Qed.

(** *** The invariant of a game *)

Lemma invariant_set_paddle (g : BreakoutGame) (p : Paddle.t) :
  game_invariant g -> game_invariant (set_paddle g p).
Proof. intros Hg. exact Hg. Qed.

Lemma indicator_ok_start (g : BreakoutGame) :
  angle g = 0 -> angle_direction g = 1 -> angle_cycle_speed g = 2 ->
  indicator_ok g.
Proof.
  intros Ea Ed Es. unfold indicator_ok. rewrite Ea, Ed, Es.
  repeat split; try lia. exists 0. lia.
Qed.

Lemma invariant_new_game (g0 g : BreakoutGame) :
  _start_new_game g0 = Ok g -> game_invariant g.
Proof.
  intros E. apply _start_new_game_Ok in E as (st & Hst & ->).
  apply lookup_lt_Some in Hst.
  split; [apply indicator_ok_start; reflexivity|].
  split.
  - unfold stage_ok. simpl. lia.
  - unfold stats_ok. simpl. split; [reflexivity|]. left. split; [reflexivity | discriminate].
Qed.

Lemma indicator_ok_ready (g : BreakoutGame) :
  indicator_ok g -> indicator_ok (_update_ready_state g).
Proof.
  intros (Hs & Hr & (k & Hk) & Hd & H0 & H180).
  unfold _update_ready_state, indicator_ok. cbn zeta.
  cbn [angle set_angle set_ball angle_direction angle_cycle_speed].
  rewrite Hs.
  destruct (Z.eqb_spec (angle g + angle_direction g * 2) 180) as [E180|N180];
  [|destruct (Z.eqb_spec (angle g + angle_direction g * 2) 0) as [E0|N0]];
    cbn [orb angle set_angle set_ball set_angle_direction angle_direction
         angle_cycle_speed];
    (split; [exact Hs|]);
    (split; [lia|]);
    (split; [exists (k + angle_direction g); lia|]);
    lia.
Qed.

Lemma invariant_ready (g : BreakoutGame) :
  game_invariant g -> game_invariant (_update_ready_state g).
Proof.
  intros (Hi & Hst & Hstats). split; [apply indicator_ok_ready, Hi|].
  unfold _update_ready_state. cbn zeta.
  destruct (_ || _); split; assumption.
Qed.

Lemma current_game_state_ready (g : BreakoutGame) :
  current_game_state (_update_ready_state g) = current_game_state g.
Proof. unfold _update_ready_state. cbn zeta. destruct (_ || _); reflexivity. Qed.

Lemma invariant_launch (g : BreakoutGame) :
  game_invariant g -> current_game_state g = READY ->
  game_invariant (_launch_ball g).
Proof.
  intros (Hi & Hst & Hsc & Hl) Hs. split; [exact Hi|]. split; [exact Hst|].
  split; [exact Hsc|]. left. cbn. split; [|discriminate].
  destruct Hl as [[Hl _]|[_ Hgo]]; [exact Hl | congruence].
Qed.

Lemma invariant_dropped (g : BreakoutGame) :
  game_invariant g -> current_game_state g = DROPPED ->
  game_invariant (_update_dropped_state g)
  /\ lives (stats (_update_dropped_state g)) = -1
  /\ current_game_state (_update_dropped_state g) = GAME_OVER.
Proof.
  intros (Hi & Hst & Hsc & Hl) Hs.
  assert (Hl0 : lives (stats g) = 0).
  { destruct Hl as [[Hl _]|[_ Hgo]]; [exact Hl | congruence]. }
  replace (_update_dropped_state g)
    with (set_current_game_state
            (set_stats g (mkGameStats (score (stats g)) (-1))) GAME_OVER)
    by (unfold _update_dropped_state; cbn [stats set_stats lives];
        rewrite Hl0; reflexivity).
  split; [|split; reflexivity].
  split; [exact Hi|]. split; [exact Hst|]. split; [exact Hsc|].
  right. split; reflexivity.
Qed.

Lemma invariant_transfer (g g' : BreakoutGame) :
  game_invariant g ->
  angle g' = angle g -> angle_direction g' = angle_direction g ->
  angle_cycle_speed g' = angle_cycle_speed g ->
  stages g' = stages g -> current_stage g' = current_stage g ->
  stats g' = stats g ->
  current_game_state g <> GAME_OVER -> current_game_state g' <> GAME_OVER ->
  game_invariant g'.
Proof.
  intros (Hi & Hst & Hsc & Hl) Ea Ed Es Et Ec Ex Hn Hn'.
  unfold game_invariant, indicator_ok, stage_ok, stats_ok in *.
  rewrite Ea, Ed, Es, Et, Ec, Ex.
  split; [exact Hi|]. split; [exact Hst|]. split; [exact Hsc|].
  left. split; [|exact Hn'].
  destruct Hl as [[Hl _]|[_ Hgo]]; [exact Hl | contradiction].
Qed.

(** From a state of the invariant the RUNNING update returns, and in a state
    of the invariant again. *)
Lemma invariant_running (g : BreakoutGame) :
  game_invariant g -> current_game_state g = RUNNING ->
  exists g', _update_running_state g = Ok g' /\ game_invariant g'.
Proof.
  intros Hg Hs.
  assert (Hn : current_game_state g <> GAME_OVER) by congruence.
  destruct (_update_running_state_cases g) as (b' & bs' & _ & _ & ->).
  set (g1 := set_bricks (set_ball g b') bs').
  assert (Hg1 : forall s, s <> GAME_OVER ->
            game_invariant (set_current_game_state g1 s)).
  { intros s Hs'. apply (invariant_transfer g); try reflexivity; assumption. }
  assert (Hout : forall g2, game_invariant g2 ->
            current_game_state g2 <> GAME_OVER ->
            game_invariant (if Ball.out_of_bounds (ball g2)
                            then set_current_game_state g2 DROPPED else g2)).
  { intros g2 Hg2 Hn2. destruct (Ball.out_of_bounds (ball g2)); [|exact Hg2].
    apply (invariant_transfer g2); try reflexivity; try assumption.
    discriminate. }
  destruct bs' as [|br bs'].
  - destruct (Z.eqb_spec (current_stage g) (Z.of_nat (length (stages g))))
      as [Elast|Nlast].
    + eexists. split; [reflexivity|]. apply Hout.
      * apply Hg1. discriminate.
      * discriminate.
    + destruct Hg as (Hi & Hst & Hstats). unfold stage_ok in Hst.
      destruct (_next_stage_advance g1) as (st & Hlk & ->);
        [subst g1; simpl; lia|].
      eexists. split; [reflexivity|]. apply Hout; [|discriminate].
      split; [apply indicator_ok_start; reflexivity|].
      split.
      * unfold stage_ok. subst g1. simpl. lia.
      * destruct Hstats as [Hsc Hl]. split; [exact Hsc|]. left.
        split; [|discriminate].
        destruct Hl as [[Hl _]|[_ Hgo]]; [exact Hl | contradiction].
  - eexists. split; [reflexivity|]. apply Hout.
    + apply (invariant_transfer g); try reflexivity; assumption.
    + subst g1. simpl. exact Hn.
Qed.

(** A frame in a state of the invariant returns, and keeps the invariant. *)
Lemma invariant_update (inp : Input) (g : BreakoutGame) :
  game_invariant g ->
  exists g', _update inp g = Ok g' /\ game_invariant g'.
Proof.
  intros Hg.
  destruct (current_game_state g) eqn:Hs.
  - destruct (launch_pressed inp) eqn:Hl.
    + rewrite _update_READY_launch by assumption.
      apply invariant_running; [|reflexivity].
      apply invariant_set_paddle, invariant_launch; assumption.
    + rewrite _update_READY_idle by assumption.
      eexists. split; [reflexivity|].
      apply invariant_ready, invariant_set_paddle, Hg.
  - rewrite _update_RUNNING by assumption.
    apply invariant_running; [apply invariant_set_paddle, Hg | exact Hs].
  - rewrite _update_DROPPED by assumption.
    eexists. split; [reflexivity|].
    apply invariant_dropped; [apply invariant_set_paddle, Hg | exact Hs].
  - destruct (btnp_KEY_RETURN inp) eqn:Hr.
    + rewrite _update_terminal_restart by (try left; congruence).
      destruct Hg as (_ & Hst & _). unfold stage_ok in Hst.
      destruct (lookup_lt_is_Some_2 (stages g) 0) as [st0 Hst0]; [lia|].
      pose proof (_start_new_game_in_range g st0 Hst0) as E.
      rewrite E. cbn [bind]. eexists. split; [reflexivity|].
      apply invariant_ready, invariant_set_paddle.
      apply (invariant_new_game g). exact E.
    + rewrite _update_terminal_idle by (try left; congruence).
      eexists. split; [reflexivity|]. apply invariant_set_paddle, Hg.
  - destruct (btnp_KEY_RETURN inp) eqn:Hr.
    + rewrite _update_terminal_restart by (try right; congruence).
      destruct Hg as (_ & Hst & _). unfold stage_ok in Hst.
      destruct (lookup_lt_is_Some_2 (stages g) 0) as [st0 Hst0]; [lia|].
      pose proof (_start_new_game_in_range g st0 Hst0) as E.
      rewrite E. cbn [bind]. eexists. split; [reflexivity|].
      apply invariant_ready, invariant_set_paddle.
      apply (invariant_new_game g). exact E.
    + rewrite _update_terminal_idle by (try right; congruence).
      eexists. split; [reflexivity|]. apply invariant_set_paddle, Hg.
Qed.

Lemma reachable_invariant (g : BreakoutGame) :
  reachable g -> game_invariant g.
Proof.
  induction 1 as [g0 g E | g inp g' _ IH E].
  - exact (invariant_new_game g0 g E).
  - destruct (invariant_update inp g IH) as (g'' & E' & Hg'').
    congruence.
Qed.

Lemma run_reachable (inps : list Input) (g g' : BreakoutGame) :
  reachable g -> run inps g = Ok g' -> reachable g'.
Proof.
  revert g. induction inps as [|inp inps IH]; intros g Hg E; simpl in E.
  - congruence.
  - apply bind_Ok in E as (g1 & E1 & E).
    apply (IH g1); [|exact E]. exact (reachable_frame g inp g1 Hg E1).
Qed.

Lemma __init___reachable (table : list Stage.t) (g : BreakoutGame) :
  __init__ table = Ok g -> reachable g.
Proof.
  intros E.
  assert (E0 : __init__ table
               = _start_new_game (_reset_ball (initial_attributes table)))
    by reflexivity.
  rewrite E0 in E. exact (reachable_new _ g E).
Qed.

(** *** Where the bricks of the next frame come from *)

Lemma py_getitem_Ok_some {A : Type} (l : list A) (i : Z) (a : A) :
  py_getitem l i = Ok a -> exists k : nat, l !! k = Some a.
Proof.
  unfold py_getitem. destruct (_ && _); [|discriminate].
  destruct (l !! _) as [a'|] eqn:E; [|discriminate].
  intros [= ->]. eauto.
Qed.

Lemma _load_stage_some (i : Z) (g g' : BreakoutGame) :
  _load_stage i g = Ok g' ->
  exists (k : nat) (st : Stage.t),
    stages g !! k = Some st
    /\ g' = set_bricks g (map Brick_of_entry (Stage.bricks st)).
Proof.
  intros E. unfold _load_stage in E. apply bind_Ok in E as (st & Est & E).
  apply py_getitem_Ok_some in Est as [k Hk]. exists k, st.
  split; [exact Hk | congruence].
Qed.

Lemma bricks_step_next_stage (g g' : BreakoutGame) :
  _next_stage g = Ok g' -> bricks_step g g'.
Proof.
  unfold _next_stage.
  destruct (current_stage g <? Z.of_nat (length (stages g))).
  - intros E. apply bind_Ok in E as (g1 & E1 & [= <-]).
    apply _load_stage_some in E1 as (k & st & Hk & ->).
    right. exists k, st. split; [exact Hk | reflexivity].
  - intros [= <-]. left. reflexivity.
Qed.

Lemma bricks_step_start_new_game (g g' : BreakoutGame) :
  _start_new_game g = Ok g' -> bricks_step g g'.
Proof.
  intros E. apply _start_new_game_Ok in E as (st & Hst & ->).
  right. exists 0%nat, st. split; [exact Hst | reflexivity].
Qed.

Lemma bricks_ready (g : BreakoutGame) :
  bricks (_update_ready_state g) = bricks g.
Proof. unfold _update_ready_state. cbn zeta. destruct (_ || _); reflexivity. Qed.

Lemma bricks_dropped (g : BreakoutGame) :
  bricks (_update_dropped_state g) = bricks g.
Proof. unfold _update_dropped_state. cbn zeta. destruct (_ >? _); reflexivity. Qed.

Lemma bricks_step_running (g g' : BreakoutGame) :
  _update_running_state g = Ok g' -> bricks_step g g'.
Proof.
  destruct (_update_running_state_cases g) as (b' & bs' & _ & Hlen & ->).
  set (g1 := set_bricks (set_ball g b') bs').
  assert (Hout : forall (c : bool) g2, bricks_step g g2 ->
            bricks_step g (if c then set_current_game_state g2 DROPPED
                           else g2)).
  { intros c g2 Hg2. destruct c; exact Hg2. }
  destruct bs' as [|br bs'].
  - destruct (current_stage g =? Z.of_nat (length (stages g))).
    + intros [= <-]. apply Hout. left. simpl. lia.
    + intros E. apply bind_Ok in E as (g2 & E2 & [= <-]). apply Hout.
      destruct (bricks_step_next_stage g1 g2 E2) as [Hle|Hload].
      * left. subst g1. simpl in Hle. lia.
      * right. exact Hload.
  - intros [= <-]. apply Hout. left. exact Hlen.
Qed.

Lemma bricks_step_update (inp : Input) (g g' : BreakoutGame) :
  _update inp g = Ok g' -> bricks_step g g'.
Proof.
  destruct (current_game_state g) eqn:Hs.
  - destruct (launch_pressed inp) eqn:Hl.
    + rewrite _update_READY_launch by assumption.
      intros E. apply bricks_step_running in E. exact E.
    + rewrite _update_READY_idle by assumption. intros [= <-].
      left. rewrite bricks_ready. reflexivity.
  - rewrite _update_RUNNING by assumption.
    intros E. apply bricks_step_running in E. exact E.
  - rewrite _update_DROPPED by assumption. intros [= <-].
    left. rewrite bricks_dropped. reflexivity.
  - destruct (btnp_KEY_RETURN inp) eqn:Hr.
    + rewrite _update_terminal_restart by (try left; congruence).
      intros E. apply bind_Ok in E as (g1 & E1 & [= <-]).
      destruct (bricks_step_start_new_game g g1 E1) as [Hle|Hload].
      * left. rewrite bricks_ready. exact Hle.
      * right. rewrite bricks_ready. exact Hload.
    + rewrite _update_terminal_idle by (try left; congruence).
      intros [= <-]. left. reflexivity.
  - destruct (btnp_KEY_RETURN inp) eqn:Hr.
    + rewrite _update_terminal_restart by (try right; congruence).
      intros E. apply bind_Ok in E as (g1 & E1 & [= <-]).
      destruct (bricks_step_start_new_game g g1 E1) as [Hle|Hload].
      * left. rewrite bricks_ready. exact Hle.
      * right. rewrite bricks_ready. exact Hload.
    + rewrite _update_terminal_idle by (try right; congruence).
      intros [= <-]. left. reflexivity.
Qed.

(** *** The indicator *)

Lemma ready_angle (g : BreakoutGame) :
  angle (_update_ready_state g)
  = angle g + angle_direction g * angle_cycle_speed g.
Proof. unfold _update_ready_state. cbn zeta. destruct (_ || _); reflexivity. Qed.

Lemma ready_cycle_speed (g : BreakoutGame) :
  angle_cycle_speed (_update_ready_state g) = angle_cycle_speed g.
Proof. unfold _update_ready_state. cbn zeta. destruct (_ || _); reflexivity. Qed.

Lemma ready_direction (g : BreakoutGame) :
  angle_direction (_update_ready_state g)
  = if (angle (_update_ready_state g) =? 180)
       || (angle (_update_ready_state g) =? 0)
    then - angle_direction g else angle_direction g.
Proof.
  rewrite ready_angle. unfold _update_ready_state. cbn zeta.
  cbn [angle set_angle set_ball angle_direction angle_cycle_speed].
  destruct (_ || _); reflexivity.
Qed.

Lemma indicator_ok_sweep (g : BreakoutGame) (n : nat) :
  indicator_ok (repeat_update _update_ready_state n (_reset_ball g)).
Proof.
  induction n as [|n IH]; simpl.
  - apply indicator_ok_start; reflexivity.
  - apply indicator_ok_ready, IH.
Qed.

(** The first half of a sweep: up from 0 to 180, two degrees a frame. *)
Lemma sweep_up (g : BreakoutGame) (n : nat) :
  (n <= 90)%nat ->
  let gn := repeat_update _update_ready_state n (_reset_ball g) in
  angle gn = 2 * Z.of_nat n
  /\ angle_cycle_speed gn = 2
  /\ angle_direction gn = (if (n <? 90)%nat then 1 else -1).
Proof.
  cbn zeta. induction n as [|n IH]; intros Hn.
  - repeat split.
  - destruct IH as (Ea & Es & Ed); [lia|].
    cbn [repeat_update].
    set (gn := repeat_update _update_ready_state n (_reset_ball g)) in *.
    assert (Ea' : angle (_update_ready_state gn) = 2 * Z.of_nat (S n)).
    { rewrite ready_angle, Ea, Es, Ed.
      destruct (Nat.ltb_spec n 90); lia. }
    split; [exact Ea'|]. split; [rewrite ready_cycle_speed; exact Es|].
    rewrite ready_direction, Ea', Ed.
    destruct (Nat.ltb_spec n 90); [|lia].
    destruct (Nat.ltb_spec (S n) 90).
    + destruct (Z.eqb_spec (2 * Z.of_nat (S n)) 180); [lia|].
      destruct (Z.eqb_spec (2 * Z.of_nat (S n)) 0); [lia|]. reflexivity.
    + destruct (Z.eqb_spec (2 * Z.of_nat (S n)) 180); [reflexivity | lia].
Qed.

End Facts.

(** ** The properties of the specification *)

Section Claims.
Context `{Collaborators}.

(** C9.  After every call of [_reset_ball], whatever the ball was before: its
    velocity is (0, 0), its trail is empty, its [out_of_bounds] flag is false,
    and its [y] is the paddle's [y] minus twice its radius.  The radius and
    the paddle are the ones before the call: it changes neither. *)
Theorem C9_reset_ball (g : BreakoutGame) :
  let b := ball (_reset_ball g) in
  Ball.speed_x b = 0%float
  /\ Ball.speed_y b = 0%float
  /\ Ball.trail b = []
  /\ Ball.out_of_bounds b = false
  /\ Ball.y b = (Paddle.y (paddle (_reset_ball g)) - 2 * Ball.r b)%float
  /\ Ball.r b = Ball.r (ball g)
  /\ paddle (_reset_ball g) = paddle g.
Proof.
  cbn zeta. rewrite (float_mul_comm 2).
  split; [reflexivity|]. split; [reflexivity|]. split; [reflexivity|].
  split; [reflexivity|]. split; [reflexivity|]. split; reflexivity.
Qed.

(** C6.  Launching sets the velocity of the ball to
    [(cos a * speed, - sin a * speed)], where [a] is the indicator angle in
    radians and [speed] is 2.5, and the state to RUNNING: a function of the
    angle alone, whatever the velocity was.  So it is for the launch that
    [_check_input] makes in READY on a launch press, and for a launch that
    follows a reset and any angle the indicator then takes. *)
Theorem C6_launch_velocity (g : BreakoutGame) :
  let v (a : Z) := ((cos (radians a) * 2.5)%float,
                    (- sin (radians a) * 2.5)%float) in
  (Ball.speed_x (ball (_launch_ball g)), Ball.speed_y (ball (_launch_ball g)))
    = v (angle g)
  /\ current_game_state (_launch_ball g) = RUNNING
  /\ (forall a : Z,
        let g' := _launch_ball (set_angle (_reset_ball g) a) in
        (Ball.speed_x (ball g'), Ball.speed_y (ball g')) = v a
        /\ current_game_state g' = RUNNING)
  /\ (forall inp : Input,
        current_game_state g = READY -> launch_pressed inp = true ->
        _check_input inp g = Ok (_launch_ball g)).
Proof.
  cbn zeta. split; [reflexivity|]. split; [reflexivity|].
  split; [intros a; split; reflexivity|].
  intros inp Hs Hl. destruct g; simpl in Hs; subst.
  unfold _check_input, launch_pressed in *.
  cbn [current_game_state GameState_eqb]. rewrite Hl. reflexivity.
Qed.


(** C3.  One call of [_check_collision] returns, and removes at most one
    brick.  The bricks are tested from the highest index downward, each with
    the ball the tests before it left.  If every brick answers false, all
    have been tested and the list is unchanged.  Otherwise the brick of the
    highest index that answers true is deleted, and only that one: one brick
    less is left, the ball is the one that test left, and no brick of a lower
    index has been tested.  Over a whole frame the brick list gets no longer,
    unless it is replaced by the bricks of a stage of the table. *)
Theorem C3_one_brick_per_scan (g : BreakoutGame) :
  let n := length (bricks g) in
  let b0 := snd (detect_collision (ball g) (TPaddle (paddle g)) true) in
  exists (b' : Ball.t) (bs' : list Brick.t) (calls : list (nat * bool)),
    _check_collision_bricks n b0 (bricks g) = Ok (b', bs', calls)
    /\ _check_collision g = Ok (set_bricks (set_ball g b') bs')
    /\ (((forall (j : nat) (brick : Brick.t),
            bricks g !! j = Some brick ->
            fst (detect_collision (ball_at b0 (bricks g) j) (TBrick brick)
                   false) = false)
         /\ bs' = bricks g
         /\ b' = ball_after b0 (rev (bricks g))
         /\ calls = misses 0 n)
        \/ (exists (i : nat) (brick : Brick.t),
              (i < n)%nat
              /\ bricks g !! i = Some brick
              /\ detect_collision (ball_at b0 (bricks g) i) (TBrick brick)
                   false = (true, b')
              /\ (forall (j : nat) (brick' : Brick.t),
                    (i < j)%nat -> bricks g !! j = Some brick' ->
                    fst (detect_collision (ball_at b0 (bricks g) j)
                           (TBrick brick') false) = false)
              /\ bs' = delete i (bricks g)
              /\ S (length bs') = n
              /\ calls = misses (S i) n ++ [(i, true)]
              /\ (forall (j : nat) (v : bool),
                    In (j, v) calls -> (i <= j)%nat)))
    /\ (forall (inp : Input) (g' : BreakoutGame),
          _update inp g = Ok g' ->
          (length (bricks g') <= length (bricks g))%nat
          \/ (exists (k : nat) (st : Stage.t),
                stages g !! k = Some st
                /\ bricks g' = map Brick_of_entry (Stage.bricks st))).
Proof.
  cbn zeta.
  destruct (_check_collision_bricks_verdicts (length (bricks g))
              (snd (detect_collision (ball g) (TPaddle (paddle g)) true))
              (bricks g)) as (b' & bs' & calls & E & Hcases); [lia|].
  rewrite firstn_all in Hcases.
  exists b', bs', calls. split; [exact E|]. split.
  { unfold _check_collision.
    destruct (detect_collision (ball g) (TPaddle (paddle g)) true) as [c b0].
    simpl in E. rewrite E. reflexivity. }
  split.
  - destruct Hcases
      as [(Hall & -> & -> & ->)
         | (i & brick & Hi & Hbr & Hd & Habove & -> & ->)].
    + left. split; [|split; [reflexivity|split; reflexivity]].
      intros j brick Hlk. apply Hall; [|exact Hlk].
      apply lookup_lt_Some in Hlk. exact Hlk.
    + right. exists i, brick.
      split; [exact Hi|]. split; [exact Hbr|]. split; [exact Hd|].
      split.
      { intros j brick' Hj Hlk. apply Habove; [|exact Hlk].
        apply lookup_lt_Some in Hlk. lia. }
      split; [reflexivity|]. split.
      * rewrite length_delete by eauto. lia.
      * split; [reflexivity|]. intros j v Hin.
        apply in_app_or in Hin as [Hin|Hin].
        -- apply misses_ge in Hin. lia.
        -- destruct Hin as [[= <- <-]|[]]. lia.
  - intros inp g' E'. exact (bricks_step_update inp g g' E').
Qed.

(** C4.  In every reachable state the stage counter lies between 1 and the
    number of stages.  [_next_stage] called with the counter at the number of
    stages returns the same game in state WIN, the counter unchanged, and so
    does any number of such calls in a row.  In a reachable state
    [_next_stage] never raises [IndexError], and leaves the counter in
    range. *)
Theorem C4_stage_counter_in_range :
  (forall g : BreakoutGame,
     reachable g -> 1 <= current_stage g <= Z.of_nat (length (stages g)))
  /\ (forall g : BreakoutGame,
        current_stage g = Z.of_nat (length (stages g)) ->
        forall n : nat,
          exists g' : BreakoutGame,
            repeat_next_stage (S n) g = Ok g'
            /\ g' = set_current_game_state g WIN
            /\ current_game_state g' = WIN
            /\ current_stage g' = current_stage g)
  /\ (forall g : BreakoutGame,
        reachable g ->
        exists g' : BreakoutGame,
          _next_stage g = Ok g'
          /\ stages g' = stages g
          /\ 1 <= current_stage g' <= Z.of_nat (length (stages g'))).
Proof.
  split; [|split].
  - intros g Hg. apply reachable_invariant in Hg as (_ & Hst & _). exact Hst.
  - intros g Hlast n. exists (set_current_game_state g WIN).
    split; [|repeat split].
    assert (Hstep : forall g0, current_stage g0 = Z.of_nat (length (stages g0)) ->
              _next_stage g0 = Ok (set_current_game_state g0 WIN)).
    { intros g0 H0. apply _next_stage_last. lia. }
    cbn [repeat_next_stage]. rewrite (Hstep g Hlast). cbn [bind].
    induction n as [|n IH]; [reflexivity|].
    cbn [repeat_next_stage].
    rewrite (Hstep (set_current_game_state g WIN) Hlast). cbn [bind].
    exact IH.
  - intros g Hg. apply reachable_invariant in Hg as (_ & Hst & _).
    unfold stage_ok in Hst.
    destruct (Z.eq_dec (current_stage g) (Z.of_nat (length (stages g))))
      as [Hlast|Hnot].
    + exists (set_current_game_state g WIN).
      split; [apply _next_stage_last; lia|]. split; [reflexivity|exact Hst].
    + destruct (_next_stage_advance g) as (st & _ & E); [lia|].
      eexists. split; [exact E|]. split; [reflexivity|].
      cbn [current_stage stages set_current_game_state].
      change (1 <= current_stage g + 1 <= Z.of_nat (length (stages g))). lia.
Qed.

(** C7.  The READY update adds [direction * speed] to the indicator angle,
    and reverses the direction exactly when the new angle is 0 or 180.  From
    the configuration of a reset the speed is 2 throughout; the angle stays in
    [0, 180] over any number of READY updates; whenever it is 180 the
    direction is -1, so that the next update leads to 178; and it is 180, for
    the first time, after 90 updates, up to which the direction was +1.  In a
    game, every READY frame without a launch is such an update. *)
Theorem C7_indicator_sweep (g : BreakoutGame) :
  let sweep n := repeat_update _update_ready_state n (_reset_ball g) in
  (angle (_update_ready_state g)
     = angle g + angle_direction g * angle_cycle_speed g
   /\ (angle (_update_ready_state g) = 0 \/ angle (_update_ready_state g) = 180 ->
       angle_direction (_update_ready_state g) = - angle_direction g)
   /\ (angle (_update_ready_state g) <> 0 ->
       angle (_update_ready_state g) <> 180 ->
       angle_direction (_update_ready_state g) = angle_direction g))
  /\ (angle (sweep 0%nat) = 0 /\ angle_direction (sweep 0%nat) = 1
      /\ angle_cycle_speed (sweep 0%nat) = 2)
  /\ (forall n : nat,
        0 <= angle (sweep n) <= 180
        /\ (angle_direction (sweep n) = 1 \/ angle_direction (sweep n) = -1)
        /\ angle (sweep (S n)) = angle (sweep n) + angle_direction (sweep n) * 2
        /\ (angle (sweep n) = 180 ->
            angle_direction (sweep n) = -1 /\ angle (sweep (S n)) = 178))
  /\ (forall n : nat, (n < 90)%nat ->
        angle (sweep n) = 2 * Z.of_nat n /\ angle_direction (sweep n) = 1)
  /\ (angle (sweep 90%nat) = 180 /\ angle_direction (sweep 90%nat) = -1
      /\ angle (sweep 91%nat) = 178)
  /\ (reachable g ->
      0 <= angle g <= 180
      /\ forall inp : Input,
           current_game_state g = READY -> launch_pressed inp = false ->
           exists g' : BreakoutGame,
             _update inp g = Ok g'
             /\ current_game_state g' = READY
             /\ angle g' = angle g + angle_direction g * 2
             /\ 0 <= angle g' <= 180).
Proof.
  cbn zeta.
  assert (Hstep : forall n,
            angle (repeat_update _update_ready_state (S n) (_reset_ball g))
            = angle (repeat_update _update_ready_state n (_reset_ball g))
              + angle_direction
                  (repeat_update _update_ready_state n (_reset_ball g)) * 2).
  { intros n. cbn [repeat_update]. rewrite ready_angle.
    destruct (indicator_ok_sweep g n) as (-> & _). reflexivity. }
  split; [|split; [|split; [|split; [|split]]]].
  - split; [apply ready_angle|]. rewrite ready_direction. split.
    + intros [E|E]; rewrite E; reflexivity.
    + intros N0 N180.
      destruct (Z.eqb_spec (angle (_update_ready_state g)) 180); [lia|].
      destruct (Z.eqb_spec (angle (_update_ready_state g)) 0); [lia|].
      reflexivity.
  - repeat split.
  - intros n.
    destruct (indicator_ok_sweep g n) as (Hs & Hr & _ & Hd & _ & H180).
    split; [exact Hr|]. split; [exact Hd|]. split; [apply Hstep|].
    intros E. split; [apply H180, E|]. rewrite Hstep, E, (H180 E). reflexivity.
  - intros n Hn. destruct (sweep_up g n) as (Ea & _ & Ed); [lia|].
    split; [exact Ea|]. rewrite Ed.
    destruct (Nat.ltb_spec n 90); [reflexivity | lia].
  - destruct (sweep_up g 90) as (Ea & _ & Ed); [lia|].
    split; [exact Ea|]. split; [exact Ed|]. rewrite Hstep, Ea, Ed. reflexivity.
  - intros Hg. apply reachable_invariant in Hg as Hinv.
    destruct Hinv as (Hi & Hst & Hstats).
    split; [apply Hi|]. intros inp Hs Hl.
    rewrite _update_READY_idle by assumption. eexists.
    split; [reflexivity|]. split; [rewrite current_game_state_ready; exact Hs|].
    pose proof (indicator_ok_ready
                  (set_paddle g (Paddle_update inp (paddle g))) Hi)
      as (_ & Hr' & _).
    split; [|exact Hr']. rewrite ready_angle.
    destruct Hi as (Hspeed & _).
    change (angle g + angle_direction g * angle_cycle_speed g
            = angle g + angle_direction g * 2).
    rewrite Hspeed. reflexivity.
Qed.

(** C10.  [_start_new_game] leaves the statistics at the dataclass defaults,
    score 0 and lives 0.  Hence in any state of a game in which the ball has
    just dropped the lives are 0, and the frame that follows returns with
    lives -1 and in state GAME_OVER, whatever the input. *)
Theorem C10_zero_lives_at_start :
  (forall g0 g : BreakoutGame,
     _start_new_game g0 = Ok g ->
     stats g = GameStats_new /\ score (stats g) = 0 /\ lives (stats g) = 0)
  /\ (forall (inp : Input) (g : BreakoutGame),
        reachable g -> current_game_state g = DROPPED ->
        lives (stats g) = 0
        /\ exists g' : BreakoutGame,
             _update inp g = Ok g'
             /\ lives (stats g') = -1
             /\ current_game_state g' = GAME_OVER).
Proof.
  split.
  - intros g0 g E. apply _start_new_game_Ok in E as (st & _ & ->).
    repeat split.
  - intros inp g Hg Hs. apply reachable_invariant in Hg as Hinv.
    split.
    + destruct Hinv as (_ & _ & _ & [[Hl _]|[_ Hgo]]); [exact Hl | congruence].
    + rewrite _update_DROPPED by assumption. eexists. split; [reflexivity|].
      apply (invariant_dropped (set_paddle g (Paddle_update inp (paddle g))));
        [apply invariant_set_paddle, Hinv | exact Hs].
Qed.

(** C8.  In GAME_OVER and in WIN a frame without a restart press returns the
    game as it was but for the paddle, which follows the pointer: ball,
    bricks, statistics, stage counter and state are untouched, whether or not
    a launch key is pressed.  A frame with a restart press starts a new game:
    the statistics are the defaults, the stage counter is 1, the bricks are
    those of the first stage, the ball is reset (no velocity, no trail, not
    out of bounds, on top of the paddle) and the state is READY.  In a
    reachable state the stage table has a first stage. *)
Theorem C8_terminal_states (inp : Input) (g : BreakoutGame) :
  terminal (current_game_state g) ->
  (btnp_KEY_RETURN inp = false ->
   exists g' : BreakoutGame,
     _update inp g = Ok g'
     /\ g' = set_paddle g (Paddle_update inp (paddle g))
     /\ ball g' = ball g /\ bricks g' = bricks g /\ stats g' = stats g
     /\ current_stage g' = current_stage g
     /\ current_game_state g' = current_game_state g)
  /\ (btnp_KEY_RETURN inp = true ->
      forall st0 : Stage.t, stages g !! 0%nat = Some st0 ->
      exists g' : BreakoutGame,
        _update inp g = Ok g'
        /\ stats g' = GameStats_new
        /\ current_stage g' = 1
        /\ bricks g' = map Brick_of_entry (Stage.bricks st0)
        /\ current_game_state g' = READY
        /\ Ball.speed_x (ball g') = 0%float
        /\ Ball.speed_y (ball g') = 0%float
        /\ Ball.trail (ball g') = []
        /\ Ball.out_of_bounds (ball g') = false
        /\ Ball.y (ball g')
           = (Paddle.y (paddle g) - 2 * Ball.r (ball g))%float)
  /\ (reachable g -> exists st0 : Stage.t, stages g !! 0%nat = Some st0).
Proof.
  intros Ht. split; [|split].
  - intros Hr. exists (set_paddle g (Paddle_update inp (paddle g))).
    split; [apply _update_terminal_idle; assumption|]. repeat split.
  - intros Hr st0 Hst0.
    rewrite _update_terminal_restart by assumption.
    rewrite (_start_new_game_in_range g st0 Hst0). cbn [bind].
    eexists. split; [reflexivity|].
    rewrite (float_mul_comm 2).
    split; [reflexivity|]. split; [reflexivity|]. split; [reflexivity|].
    split; [reflexivity|]. split; [reflexivity|]. split; [reflexivity|].
    split; [reflexivity|]. split; reflexivity.
  - intros Hg. apply reachable_invariant in Hg as (_ & Hst & _).
    unfold stage_ok in Hst. apply lookup_lt_is_Some_2. lia.
Qed.

(** In the RUNNING update, if after collision resolution the brick field is
    empty, the stage counter equals the number of stages and the ball is not
    out of bounds, the update returns that game in state WIN; and so does the
    frame [_update] in state RUNNING, whose paddle update comes first. *)
Theorem last_stage_cleared_in_bounds (g g1 : BreakoutGame) :
  _check_collision (set_ball g (Ball_update (ball g))) = Ok g1 ->
  bricks g1 = [] ->
  current_stage g1 = Z.of_nat (length (stages g1)) ->
  Ball.out_of_bounds (ball g1) = false ->
  _update_running_state g = Ok (set_current_game_state g1 WIN)
  /\ current_game_state (set_current_game_state g1 WIN) = WIN
  /\ (forall (inp : Input) (g0 : BreakoutGame),
        current_game_state g0 = RUNNING ->
        g = set_paddle g0 (Paddle_update inp (paddle g0)) ->
        _update inp g0 = Ok (set_current_game_state g1 WIN)).
Proof.
  intros E Hb Hc Ho.
  assert (Hrun : _update_running_state g = Ok (set_current_game_state g1 WIN)).
  { unfold _update_running_state. cbn zeta. rewrite E. cbn [bind].
    rewrite Hb, Hc, Z.eqb_refl. cbn [bind].
    cbn [ball set_current_game_state]. rewrite Ho. reflexivity. }
  split; [exact Hrun|]. split; [reflexivity|].
  intros inp g0 Hs ->. rewrite _update_RUNNING by exact Hs. exact Hrun.
Qed.

End Claims.

(** ** Further properties of the game loop *)

Section Extras.
Context `{Collaborators}.

(** X1.  [_start_new_game] raises [IndexError] exactly when the stage table
    is empty: its one list subscript is [self.stages[0]].  So does [__init__],
    which ends with that call: no game starts on an empty stage table. *)
Theorem start_new_game_needs_a_stage (g : BreakoutGame) :
  (_start_new_game g = Raise IndexError <-> stages g = [])
  /\ (forall table : list Stage.t,
        __init__ table = Raise IndexError <-> table = []).
Proof.
  assert (Hgen : forall g0 : BreakoutGame,
            _start_new_game g0 = Raise IndexError <-> stages g0 = []).
  { intros g0. destruct (stages g0) as [|st0 sts] eqn:E.
    - split; [reflexivity|]. intros _.
      unfold _start_new_game, _load_stage, py_getitem.
      cbn [stages set_current_stage set_stats current_stage].
      rewrite E. reflexivity.
    - rewrite (_start_new_game_in_range g0 st0) by (rewrite E; reflexivity).
      split; discriminate. }
  split; [apply Hgen|].
  intros table.
  change (__init__ table)
    with (_start_new_game (_reset_ball (initial_attributes table))).
  exact (Hgen (_reset_ball (initial_attributes table))).
Qed.

(** X2.  [_load_stage(i)] indexes the stage table as Python does: for
    [-n <= i < n], with [n] the number of stages, it returns with the bricks
    of the stage of index [i mod n], one brick an entry in the order of the
    file, and with nothing else changed; a negative index counts from the
    end.  Any other index raises [IndexError]. *)
Theorem load_stage_index (i : Z) (g : BreakoutGame) :
  let n := Z.of_nat (length (stages g)) in
  (- n <= i < n ->
   exists st : Stage.t,
     stages g !! Z.to_nat (i mod n) = Some st
     /\ _load_stage i g
        = Ok (set_bricks g (map Brick_of_entry (Stage.bricks st)))
     /\ (forall (k : nat) (e : Stage.entry),
           Stage.bricks st !! k = Some e ->
           map Brick_of_entry (Stage.bricks st) !! k
           = Some (Brick.mk (Stage.x e) (Stage.y e) (Stage.brick_type e))))
  /\ (i < - n \/ n <= i -> _load_stage i g = Raise IndexError).
Proof.
  cbn zeta. set (n := Z.of_nat (length (stages g))).
  unfold _load_stage, py_getitem. fold n. split.
  - intros Hi.
    assert (Ej : (if i <? 0 then n + i else i) = i mod n).
    { destruct (Z.ltb_spec i 0).
      - apply (Z.mod_unique_pos _ _ (-1)); lia.
      - symmetry. apply Z.mod_small. lia. }
    rewrite Ej.
    assert (Hj : 0 <= i mod n < n) by (apply Z.mod_pos_bound; lia).
    destruct (Z.leb_spec 0 (i mod n)); [|lia].
    destruct (Z.ltb_spec (i mod n) n); [|lia]. cbn [andb].
    destruct (lookup_lt_is_Some_2 (stages g) (Z.to_nat (i mod n)))
      as [st Hst]; [lia|].
    exists st. rewrite Hst. split; [reflexivity|]. split; [reflexivity|].
    intros k e Hk. rewrite list_lookup_fmap, Hk. reflexivity.
  - intros Hi. destruct (Z.ltb_spec i 0).
    + destruct (Z.leb_spec 0 (n + i)); [|reflexivity].
      destruct (Z.ltb_spec (n + i) n); [lia | reflexivity].
    + destruct (Z.leb_spec 0 i); [|lia].
      destruct (Z.ltb_spec i n); [lia | reflexivity].
Qed.

(** X5.  [_reset_ball] is idempotent, and it leaves alone the ball's
    horizontal position, radius and gravity, the paddle, the statistics, the
    bricks, the stage counter and the state: a reset ball keeps its old [x]
    until a READY update moves it. *)
Theorem reset_ball_idempotent (g : BreakoutGame) :
  _reset_ball (_reset_ball g) = _reset_ball g
  /\ Ball.x (ball (_reset_ball g)) = Ball.x (ball g)
  /\ Ball.r (ball (_reset_ball g)) = Ball.r (ball g)
  /\ Ball.gravity (ball (_reset_ball g)) = Ball.gravity (ball g)
  /\ paddle (_reset_ball g) = paddle g
  /\ stats (_reset_ball g) = stats g
  /\ bricks (_reset_ball g) = bricks g
  /\ current_stage (_reset_ball g) = current_stage g
  /\ stages (_reset_ball g) = stages g
  /\ current_game_state (_reset_ball g) = current_game_state g.
Proof.
  split; [|repeat split].
  destruct g as [gv st pd an ad acs bl sts cs bks gs]. destruct bl.
  reflexivity.
Qed.

(** X7.  [_check_input] acts on a key only in the state the key belongs to.
    In RUNNING and DROPPED no key does anything.  In READY a launch press
    launches, whether or not the restart key is down too, and the restart
    key alone does nothing.  In GAME_OVER and WIN a restart press starts a new
    game, whether or not a launch key is down too, and a launch key alone
    does nothing. *)
Theorem check_input_gating (inp : Input) (g : BreakoutGame) :
  (current_game_state g = RUNNING \/ current_game_state g = DROPPED ->
   _check_input inp g = Ok g)
  /\ (current_game_state g = READY ->
      _check_input inp g
      = Ok (if launch_pressed inp then _launch_ball g else g))
  /\ (terminal (current_game_state g) ->
      _check_input inp g
      = (if btnp_KEY_RETURN inp then _start_new_game g else Ok g)).
Proof.
  unfold terminal, launch_pressed.
  destruct g as [gv st pd an ad acs bl sts cs bks gs]. cbn [current_game_state].
  split; [|split].
  - intros [->| ->]; reflexivity.
  - intros ->. unfold _check_input. cbn [current_game_state GameState_eqb].
    destruct (btnp_MOUSE_BUTTON_LEFT inp || btnp_KEY_SPACE inp); reflexivity.
  - intros [->| ->]; reflexivity.
Qed.

(** *** The collision resolver and the RUNNING update, case by case *)

Lemma _check_collision_hit_or_miss (g : BreakoutGame) :
  exists (b' : Ball.t) (bs' : list Brick.t),
    _check_collision g = Ok (set_bricks (set_ball g b') bs')
    /\ (bs' = bricks g
        \/ exists i : nat,
             (i < length (bricks g))%nat /\ bs' = delete i (bricks g)).
Proof.
  unfold _check_collision.
  destruct (detect_collision (ball g) (TPaddle (paddle g)) true) as [c b0].
  destruct (_check_collision_bricks_spec (length (bricks g)) b0 (bricks g))
    as (b' & bs' & calls & E & Hcases); [lia|].
  rewrite E. cbn [bind]. exists b', bs'. split; [reflexivity|].
  destruct Hcases as [[-> _] | (i & br & bi & Hi & _ & _ & -> & _)];
    [left; reflexivity | right; exists i; split; [exact Hi | reflexivity]].
Qed.

Lemma py_getitem_Ok_index {A : Type} (l : list A) (i : Z) (a : A) :
  py_getitem l i = Ok a ->
  exists k : nat, l !! k = Some a /\ (0 <= i -> k = Z.to_nat i).
Proof.
  unfold py_getitem. destruct (_ && _); [|discriminate].
  destruct (l !! _) as [a'|] eqn:E; [|discriminate].
  intros [= ->]. eexists. split; [exact E|]. intros Hi.
  destruct (Z.ltb_spec i 0); [lia | reflexivity].
Qed.

Lemma _next_stage_Ok_cases (g g' : BreakoutGame) :
  _next_stage g = Ok g' ->
  (current_stage g < Z.of_nat (length (stages g))
   /\ exists (k : nat) (st : Stage.t),
        stages g !! k = Some st
        /\ (0 <= current_stage g -> k = Z.to_nat (current_stage g))
        /\ g' = set_current_game_state
                  (_reset_ball
                     (set_bricks (set_current_stage g (current_stage g + 1))
                        (map Brick_of_entry (Stage.bricks st)))) READY)
  \/ (Z.of_nat (length (stages g)) <= current_stage g
      /\ g' = set_current_game_state g WIN).
Proof.
  unfold _next_stage.
  destruct (Z.ltb_spec (current_stage g) (Z.of_nat (length (stages g)))).
  - intros E. apply bind_Ok in E as (g1 & E1 & E).
    unfold _load_stage in E1. apply bind_Ok in E1 as (st & Est & E1).
    apply py_getitem_Ok_index in Est as (k & Hk & Hidx).
    cbn [current_stage set_current_stage] in Hidx.
    left. split; [assumption|]. exists k, st. split; [exact Hk|]. split.
    + intros Hpos. rewrite Hidx by lia. f_equal. lia.
    + congruence.
  - intros E. right. split; [assumption | congruence].
Qed.

(** What the RUNNING update returns, in terms of the game [g1] that the
    collision resolver leaves: one of four games. *)
Lemma _update_running_state_Ok_cases (g g' : BreakoutGame) :
  _update_running_state g = Ok g' ->
  exists (b' : Ball.t) (bs' : list Brick.t),
    let g1 := set_bricks (set_ball g b') bs' in
    (bs' = bricks g
     \/ exists i : nat, (i < length (bricks g))%nat /\ bs' = delete i (bricks g))
    /\ ((bs' <> [] /\ Ball.out_of_bounds b' = false /\ g' = g1)
        \/ (bs' <> [] /\ Ball.out_of_bounds b' = true
            /\ g' = set_current_game_state g1 DROPPED)
        \/ (bs' = [] /\ Ball.out_of_bounds b' = false
            /\ Z.of_nat (length (stages g)) <= current_stage g
            /\ g' = set_current_game_state g1 WIN)
        \/ (bs' = [] /\ Ball.out_of_bounds b' = true
            /\ Z.of_nat (length (stages g)) <= current_stage g
            /\ g' = set_current_game_state g1 DROPPED)
        \/ (bs' = [] /\ current_stage g < Z.of_nat (length (stages g))
            /\ exists (k : nat) (st : Stage.t),
                 stages g !! k = Some st
                 /\ (0 <= current_stage g -> k = Z.to_nat (current_stage g))
                 /\ g' = set_current_game_state
                           (_reset_ball
                              (set_bricks
                                 (set_current_stage g1 (current_stage g + 1))
                                 (map Brick_of_entry (Stage.bricks st))))
                           READY)).
Proof.
  intros E.
  destruct (_update_running_state_cases g) as (b' & bs' & Ec & _ & Eq).
  destruct (_check_collision_hit_or_miss (set_ball g (Ball_update (ball g))))
    as (b2 & bs2 & Ec2 & Hbs).
  assert (Ebs : bs' = bs2).
  { rewrite Ec in Ec2.
    apply (f_equal (fun r => match r with
                             | Ok x => bricks x
                             | Raise _ => []
                             end)) in Ec2.
    exact Ec2. }
  subst bs2. cbn [bricks set_ball] in Hbs.
  exists b', bs'. cbn zeta. split; [exact Hbs|].
  rewrite Eq in E. clear Eq Ec Ec2.
  set (g1 := set_bricks (set_ball g b') bs') in *.
  destruct bs' as [|br bs'].
  - destruct (Z.eqb_spec (current_stage g) (Z.of_nat (length (stages g))))
      as [Elast|Nlast].
    + cbn [bind] in E.
      change (Ball.out_of_bounds (ball (set_current_game_state g1 WIN)))
        with (Ball.out_of_bounds b') in E.
      destruct (Ball.out_of_bounds b') eqn:Ho; injection E as <-.
      * right. right. right. left.
        split; [reflexivity|]. split; [reflexivity|]. split; [lia|reflexivity].
      * right. right. left.
        split; [reflexivity|]. split; [reflexivity|]. split; [lia|reflexivity].
    + apply bind_Ok in E as (g2 & E2 & E).
      apply _next_stage_Ok_cases in E2
        as [(Hlt & k & st & Hk & Hidx & ->) | (Hge & ->)].
      * right. right. right. right.
        split; [reflexivity|]. split; [exact Hlt|]. exists k, st.
        split; [exact Hk|]. split; [exact Hidx|].
        injection E as <-. reflexivity.
      * change (Z.of_nat (length (stages g)) <= current_stage g) in Hge.
        change (Ball.out_of_bounds (ball (set_current_game_state g1 WIN)))
          with (Ball.out_of_bounds b') in E.
        destruct (Ball.out_of_bounds b') eqn:Ho; injection E as <-.
        -- right. right. right. left.
           split; [reflexivity|]. split; [reflexivity|].
           split; [lia|reflexivity].
        -- right. right. left.
           split; [reflexivity|]. split; [reflexivity|].
           split; [lia|reflexivity].
  - cbn [bind] in E.
    change (Ball.out_of_bounds (ball g1)) with (Ball.out_of_bounds b') in E.
    destruct (Ball.out_of_bounds b') eqn:Ho; injection E as <-.
    + right. left. split; [discriminate|]. split; reflexivity.
    + left. split; [discriminate|]. split; reflexivity.
Qed.

Lemma ready_shape (g : BreakoutGame) :
  exists (x : float) (a d : Z),
    _update_ready_state g
    = mkGame (gravity g) (stats g) (paddle g) a d (angle_cycle_speed g)
        (Ball.set_x (ball g) x) (stages g) (current_stage g) (bricks g)
        (current_game_state g).
Proof.
  unfold _update_ready_state. cbn zeta.
  destruct (_ || _); eexists; eexists; eexists; reflexivity.
Qed.

Lemma dropped_shape (g : BreakoutGame) :
  let s := mkGameStats (score (stats g)) (lives (stats g) - 1) in
  _update_dropped_state g
  = set_current_game_state (_reset_ball (set_stats g s)) READY
  \/ _update_dropped_state g
     = set_current_game_state (set_stats g s) GAME_OVER.
Proof.
  cbn zeta. unfold _update_dropped_state. cbn zeta.
  destruct (_ >? _); [left | right]; reflexivity.
Qed.

(** What a RUNNING update leaves alone, and the states it can end in. *)
Lemma running_frame (g g' : BreakoutGame) :
  _update_running_state g = Ok g' ->
  stages g' = stages g /\ stats g' = stats g /\ paddle g' = paddle g
  /\ (current_game_state g' = current_game_state g
      \/ current_game_state g' = DROPPED
      \/ current_game_state g' = WIN
      \/ current_game_state g' = READY).
Proof.
  intros E. apply _update_running_state_Ok_cases in E
    as (b' & bs' & _ & Hcases). cbn zeta in Hcases.
  destruct Hcases
    as [(_ & _ & ->) | [(_ & _ & ->) | [(_ & _ & _ & ->)
       | [(_ & _ & _ & ->) | (_ & _ & k & st & _ & _ & ->)]]]];
    (split; [reflexivity|]); (split; [reflexivity|]);
    (split; [reflexivity|]); auto.
Qed.

(** X4.  No frame changes the stage table, and no frame awards a point: a
    frame leaves the score as it was, unless it is a restart, which sets it
    to 0.  So the score is 0 in every reachable state. *)
Theorem score_never_awarded (inp : Input) (g g' : BreakoutGame) :
  _update inp g = Ok g' ->
  stages g' = stages g
  /\ (score (stats g') = score (stats g)
      \/ (terminal (current_game_state g) /\ btnp_KEY_RETURN inp = true
          /\ score (stats g') = 0))
  /\ (reachable g -> score (stats g) = 0 /\ score (stats g') = 0).
Proof.
  intros E.
  assert (Hmain : stages g' = stages g
            /\ (score (stats g') = score (stats g)
                \/ (terminal (current_game_state g)
                    /\ btnp_KEY_RETURN inp = true
                    /\ score (stats g') = 0))).
  { destruct (current_game_state g) eqn:Hs.
    - destruct (launch_pressed inp) eqn:Hl.
      + rewrite _update_READY_launch in E by assumption.
        apply running_frame in E as (-> & -> & _). split; [reflexivity|].
        left. reflexivity.
      + rewrite _update_READY_idle in E by assumption.
        destruct (ready_shape (set_paddle g (Paddle_update inp (paddle g))))
          as (x & a & d & Er).
        rewrite Er in E. injection E as <-. split; [reflexivity|].
        left. reflexivity.
    - rewrite _update_RUNNING in E by assumption.
      apply running_frame in E as (-> & -> & _). split; [reflexivity|].
      left. reflexivity.
    - rewrite _update_DROPPED in E by assumption. injection E as <-.
      destruct (dropped_shape (set_paddle g (Paddle_update inp (paddle g))))
        as [-> | ->]; (split; [reflexivity|]); left; reflexivity.
    - destruct (btnp_KEY_RETURN inp) eqn:Hr.
      + rewrite _update_terminal_restart in E by (try left; congruence).
        apply bind_Ok in E as (g1 & E1 & E).
        apply _start_new_game_Ok in E1 as (st0 & _ & ->).
        destruct (ready_shape (set_paddle
                  (set_current_game_state
                     (_reset_ball
                        (set_bricks
                           (set_current_stage (set_stats g GameStats_new) 1)
                           (map Brick_of_entry (Stage.bricks st0)))) READY)
                  (Paddle_update inp (paddle g)))) as (x & a & d & Er).
        change (paddle (set_current_game_state
                  (_reset_ball
                     (set_bricks
                        (set_current_stage (set_stats g GameStats_new) 1)
                        (map Brick_of_entry (Stage.bricks st0)))) READY))
          with (paddle g) in E.
        rewrite Er in E. injection E as <-. split; [reflexivity|].
        right. split; [left; reflexivity|]. split; reflexivity.
      + rewrite _update_terminal_idle in E by (try left; congruence).
        injection E as <-. split; [reflexivity|]. left. reflexivity.
    - destruct (btnp_KEY_RETURN inp) eqn:Hr.
      + rewrite _update_terminal_restart in E by (try right; congruence).
        apply bind_Ok in E as (g1 & E1 & E).
        apply _start_new_game_Ok in E1 as (st0 & _ & ->).
        destruct (ready_shape (set_paddle
                  (set_current_game_state
                     (_reset_ball
                        (set_bricks
                           (set_current_stage (set_stats g GameStats_new) 1)
                           (map Brick_of_entry (Stage.bricks st0)))) READY)
                  (Paddle_update inp (paddle g)))) as (x & a & d & Er).
        change (paddle (set_current_game_state
                  (_reset_ball
                     (set_bricks
                        (set_current_stage (set_stats g GameStats_new) 1)
                        (map Brick_of_entry (Stage.bricks st0)))) READY))
          with (paddle g) in E.
        rewrite Er in E. injection E as <-. split; [reflexivity|].
        right. split; [right; reflexivity|]. split; reflexivity.
      + rewrite _update_terminal_idle in E by (try right; congruence).
        injection E as <-. split; [reflexivity|]. left. reflexivity. }
  split; [apply Hmain|]. split; [apply Hmain|].
  intros Hg. split.
  - apply reachable_invariant in Hg as (_ & _ & Hsc & _). exact Hsc.
  - apply (reachable_frame g inp g' Hg) in E as Hg'.
    apply reachable_invariant in Hg' as (_ & _ & Hsc & _). exact Hsc.
Qed.

(** One frame, as one of six cases. *)
Lemma _update_Ok_cases (inp : Input) (g g' : BreakoutGame) :
  _update inp g = Ok g' ->
  let p := Paddle_update inp (paddle g) in
  (current_game_state g = READY /\ launch_pressed inp = false
   /\ g' = _update_ready_state (set_paddle g p))
  \/ (current_game_state g = READY /\ launch_pressed inp = true
      /\ _update_running_state (set_paddle (_launch_ball g) p) = Ok g')
  \/ (current_game_state g = RUNNING
      /\ _update_running_state (set_paddle g p) = Ok g')
  \/ (current_game_state g = DROPPED
      /\ g' = _update_dropped_state (set_paddle g p))
  \/ (terminal (current_game_state g) /\ btnp_KEY_RETURN inp = false
      /\ g' = set_paddle g p)
  \/ (terminal (current_game_state g) /\ btnp_KEY_RETURN inp = true
      /\ exists st0 : Stage.t,
           stages g !! 0%nat = Some st0
           /\ g' = _update_ready_state
                     (set_paddle
                        (set_current_game_state
                           (_reset_ball
                              (set_bricks
                                 (set_current_stage
                                    (set_stats g GameStats_new) 1)
                                 (map Brick_of_entry (Stage.bricks st0))))
                           READY) p)).
Proof.
  intros E. cbn zeta.
  assert (Hterm : terminal (current_game_state g) ->
            (terminal (current_game_state g) /\ btnp_KEY_RETURN inp = false
             /\ g' = set_paddle g (Paddle_update inp (paddle g)))
            \/ (terminal (current_game_state g) /\ btnp_KEY_RETURN inp = true
                /\ exists st0 : Stage.t,
                     stages g !! 0%nat = Some st0
                     /\ g' = _update_ready_state
                               (set_paddle
                                  (set_current_game_state
                                     (_reset_ball
                                        (set_bricks
                                           (set_current_stage
                                              (set_stats g GameStats_new) 1)
                                           (map Brick_of_entry
                                              (Stage.bricks st0))))
                                     READY)
                                  (Paddle_update inp (paddle g))))).
  { intros Ht. destruct (btnp_KEY_RETURN inp) eqn:Hr.
    - rewrite _update_terminal_restart in E by assumption.
      apply bind_Ok in E as (g1 & E1 & E).
      apply _start_new_game_Ok in E1 as (st0 & Hst0 & ->).
      right. split; [exact Ht|]. split; [reflexivity|]. exists st0.
      split; [exact Hst0|]. injection E as <-. reflexivity.
    - rewrite _update_terminal_idle in E by assumption.
      left. split; [exact Ht|]. split; [reflexivity|]. congruence. }
  destruct (current_game_state g) eqn:Hs.
  - destruct (launch_pressed inp) eqn:Hl.
    + rewrite _update_READY_launch in E by assumption.
      right. left. repeat split. exact E.
    + rewrite _update_READY_idle in E by assumption.
      left. repeat split. congruence.
  - rewrite _update_RUNNING in E by assumption.
    right. right. left. split; [reflexivity | exact E].
  - rewrite _update_DROPPED in E by assumption.
    right. right. right. left. split; [reflexivity | congruence].
  - right. right. right. right. apply Hterm. left. reflexivity.
  - right. right. right. right. apply Hterm. right. reflexivity.
Qed.

(** X6.  [_check_collision] returns the game with a new ball and with the
    bricks it found, in their order, but for at most one: either the list is
    unchanged, or one index [i] is gone, the bricks below [i] keep their
    index and those above move down by one.  Nothing else of the game
    changes. *)
Theorem check_collision_survivors (g : BreakoutGame) :
  exists (b' : Ball.t) (bs' : list Brick.t),
    _check_collision g = Ok (set_bricks (set_ball g b') bs')
    /\ bs' `sublist_of` bricks g
    /\ (bs' = bricks g
        \/ exists i : nat,
             (i < length (bricks g))%nat
             /\ S (length bs') = length (bricks g)
             /\ (forall j : nat, (j < i)%nat -> bs' !! j = bricks g !! j)
             /\ (forall j : nat, (i <= j)%nat -> bs' !! j = bricks g !! S j)).
Proof.
  destruct (_check_collision_hit_or_miss g) as (b' & bs' & E & Hbs).
  exists b', bs'. split; [exact E|].
  destruct Hbs as [-> | (i & Hi & ->)].
  - split; [reflexivity | left; reflexivity].
  - split; [apply sublist_delete|]. right. exists i.
    split; [exact Hi|]. split.
    + rewrite length_delete by (apply lookup_lt_is_Some_2; exact Hi). lia.
    + split; intros j Hj.
      * apply list_lookup_delete_lt. exact Hj.
      * apply list_lookup_delete_ge. exact Hj.
Qed.

(** X8.  When the RUNNING update finds the brick field empty before the last
    stage, it moves on to the next stage whether or not the ball is out of
    bounds: the counter goes up by one, the bricks are those of the stage of
    that number, the ball is reset, which lowers the out-of-bounds flag, and
    the state is READY, never DROPPED. *)
Theorem stage_cleared_advances (g g1 : BreakoutGame) :
  _check_collision (set_ball g (Ball_update (ball g))) = Ok g1 ->
  bricks g1 = [] ->
  0 <= current_stage g1 < Z.of_nat (length (stages g1)) ->
  exists (st : Stage.t) (g' : BreakoutGame),
    stages g1 !! Z.to_nat (current_stage g1) = Some st
    /\ _update_running_state g = Ok g'
    /\ g' = set_current_game_state
              (_reset_ball
                 (set_bricks (set_current_stage g1 (current_stage g1 + 1))
                    (map Brick_of_entry (Stage.bricks st)))) READY
    /\ current_game_state g' = READY
    /\ current_stage g' = current_stage g1 + 1
    /\ bricks g' = map Brick_of_entry (Stage.bricks st)
    /\ Ball.out_of_bounds (ball g') = false.
Proof.
  intros E Hb Hc.
  destruct (_next_stage_advance g1 Hc) as (st & Hst & En).
  exists st. eexists. split; [exact Hst|]. split.
  - unfold _update_running_state. cbn zeta. rewrite E. cbn [bind].
    rewrite Hb.
    destruct (Z.eqb_spec (current_stage g1) (Z.of_nat (length (stages g1))));
      [lia|].
    rewrite En. reflexivity.
  - repeat split.
Qed.

(** When the RUNNING update finds bricks left after collision
    resolution, the state becomes DROPPED if the ball is out of bounds and
    stays as it was otherwise; the game is the one the collision resolver
    left. *)
Theorem bricks_left_running_or_dropped (g g1 : BreakoutGame) :
  _check_collision (set_ball g (Ball_update (ball g))) = Ok g1 ->
  bricks g1 <> [] ->
  _update_running_state g
  = Ok (if Ball.out_of_bounds (ball g1)
        then set_current_game_state g1 DROPPED else g1).
Proof.
  intros E Hb. unfold _update_running_state. cbn zeta. rewrite E. cbn [bind].
  destruct (bricks g1) as [|br bs]; [congruence|]. cbn [bind].
  destruct (Ball.out_of_bounds (ball g1)); reflexivity.
Qed.

(** X9.  From one frame to the next the state follows the edges of
    [may_follow]: READY and RUNNING lead to READY, RUNNING, DROPPED or WIN;
    DROPPED leads to READY or GAME_OVER; GAME_OVER and WIN stay or lead to
    READY.  In particular GAME_OVER is entered from DROPPED only, and READY
    never leads to GAME_OVER in one frame. *)
Theorem frame_transitions (inp : Input) (g g' : BreakoutGame) :
  _update inp g = Ok g' ->
  may_follow (current_game_state g) (current_game_state g') = true
  /\ (current_game_state g' = GAME_OVER ->
      current_game_state g = DROPPED \/ current_game_state g = GAME_OVER).
Proof.
  intros E.
  assert (Hf : may_follow (current_game_state g) (current_game_state g')
               = true).
  { apply _update_Ok_cases in E. cbn zeta in E.
    destruct E as [(Hs & _ & ->) | [(Hs & _ & E) | [(Hs & E) | [(Hs & ->)
                  | [(Ht & _ & ->) | (Ht & _ & st0 & _ & ->)]]]]].
    - rewrite current_game_state_ready. cbn. rewrite Hs. reflexivity.
    - apply running_frame in E as (_ & _ & _ & Hst). rewrite Hs.
      cbn in Hst. destruct Hst as [-> | [-> | [-> | ->]]]; reflexivity.
    - apply running_frame in E as (_ & _ & _ & Hst). rewrite Hs.
      cbn in Hst. rewrite Hs in Hst.
      destruct Hst as [-> | [-> | [-> | ->]]]; reflexivity.
    - rewrite Hs.
      destruct (dropped_shape (set_paddle g (Paddle_update inp (paddle g))))
        as [-> | ->]; reflexivity.
    - cbn. destruct Ht as [-> | ->]; reflexivity.
    - rewrite current_game_state_ready. cbn.
      destruct Ht as [-> | ->]; reflexivity. }
  split; [exact Hf|]. intros Hgo. rewrite Hgo in Hf.
  destruct (current_game_state g); try discriminate; auto.
Qed.

(** *** Flags and bricks along a game *)

Lemma play_transfer (g g' : BreakoutGame) :
  Ball.out_of_bounds (ball g') = Ball.out_of_bounds (ball g) ->
  Ball.speed_x (ball g') = Ball.speed_x (ball g) ->
  Ball.speed_y (ball g') = Ball.speed_y (ball g) ->
  current_game_state g' = current_game_state g ->
  stages g' = stages g -> current_stage g' = current_stage g ->
  bricks g' = bricks g ->
  flags_ok g -> field_ok g -> flags_ok g' /\ field_ok g'.
Proof.
  intros Eo Ex Ey Es Et Ec Eb Hf Hb. unfold flags_ok, field_ok in *.
  rewrite Eo, Ex, Ey, Es, Et, Ec, Eb. split; assumption.
Qed.

Lemma play_fresh (g : BreakoutGame) (st : Stage.t) (table : list Stage.t)
    (c : Z) :
  current_game_state g = READY ->
  Ball.out_of_bounds (ball g) = false ->
  Ball.speed_x (ball g) = 0%float -> Ball.speed_y (ball g) = 0%float ->
  stages g = table -> current_stage g = c ->
  bricks g = map Brick_of_entry (Stage.bricks st) ->
  table !! Z.to_nat (c - 1) = Some st ->
  flags_ok g /\ field_ok g.
Proof.
  intros Es Eo Ex Ey Et Ec Eb Hst. unfold flags_ok, field_ok.
  rewrite Es, Eo, Ex, Ey, Et, Ec, Eb. split; [split|split; [|split]].
  - split; [discriminate | intros [?|?]; discriminate].
  - intros _. split; reflexivity.
  - exists st. split; [exact Hst | reflexivity].
  - discriminate.
  - discriminate.
Qed.

Lemma running_play (g g' : BreakoutGame) :
  stage_ok g ->
  (exists st : Stage.t,
     stages g !! Z.to_nat (current_stage g - 1) = Some st
     /\ bricks g `sublist_of` map Brick_of_entry (Stage.bricks st)) ->
  current_game_state g = RUNNING ->
  _update_running_state g = Ok g' ->
  flags_ok g' /\ field_ok g'.
Proof.
  intros Hst (st & Hlk & Hsub) Hs E.
  apply _update_running_state_Ok_cases in E as (b' & bs' & Hbs & Hcases).
  cbn zeta in Hcases. unfold stage_ok in Hst.
  assert (Hsub' : bs' `sublist_of` map Brick_of_entry (Stage.bricks st)).
  { destruct Hbs as [-> | (i & _ & ->)]; [exact Hsub|].
    etrans; [apply sublist_delete | exact Hsub]. }
  assert (Hgen : forall (s : GameState),
            (Ball.out_of_bounds b' = true <-> s = DROPPED \/ s = GAME_OVER) ->
            s <> READY ->
            (s = RUNNING -> bs' <> []) ->
            (s = WIN -> bs' = []
                        /\ current_stage g = Z.of_nat (length (stages g))) ->
            flags_ok (set_current_game_state
                        (set_bricks (set_ball g b') bs') s)
            /\ field_ok (set_current_game_state
                           (set_bricks (set_ball g b') bs') s)).
  { intros s Ho Hr Hrun Hwin. unfold flags_ok, field_ok.
    cbn [ball bricks stages current_stage current_game_state
         set_current_game_state set_bricks set_ball].
    split; [split; [exact Ho | intros ?; contradiction]|].
    split; [exists st; split; assumption|]. split; assumption. }
  destruct Hcases
    as [(Hne & Ho & ->) | [(Hne & Ho & ->) | [(He & Ho & Hge & ->)
       | [(He & Ho & Hge & ->) | (He & Hlt & k & st' & Hk & Hidx & ->)]]]].
  - assert (Eg : set_bricks (set_ball g b') bs'
                 = set_current_game_state
                     (set_bricks (set_ball g b') bs') RUNNING).
    { destruct g; cbn in Hs; subst; reflexivity. }
    rewrite Eg. apply Hgen.
    + rewrite Ho. split; [discriminate | intros [?|?]; discriminate].
    + discriminate.
    + intros _. exact Hne.
    + discriminate.
  - apply Hgen.
    + rewrite Ho. split; [left; reflexivity | reflexivity].
    + discriminate.
    + discriminate.
    + discriminate.
  - apply Hgen.
    + rewrite Ho. split; [discriminate | intros [?|?]; discriminate].
    + discriminate.
    + discriminate.
    + intros _. split; [exact He | lia].
  - apply Hgen.
    + rewrite Ho. split; [left; reflexivity | reflexivity].
    + discriminate.
    + discriminate.
    + discriminate.
  - apply (play_fresh _ st' (stages g) (current_stage g + 1));
      try reflexivity.
    rewrite Hidx in Hk by lia.
    replace (current_stage g + 1 - 1) with (current_stage g) by lia.
    exact Hk.
Qed.

Lemma play_update (inp : Input) (g g' : BreakoutGame) :
  game_invariant g -> flags_ok g -> field_ok g ->
  _update inp g = Ok g' ->
  flags_ok g' /\ field_ok g'.
Proof.
  intros (_ & Hst & _) Hf Hb E.
  apply _update_Ok_cases in E. cbn zeta in E.
  destruct E as [(Hs & _ & ->) | [(Hs & _ & E) | [(Hs & E) | [(Hs & ->)
                | [(Ht & _ & ->) | (Ht & _ & st0 & Hst0 & ->)]]]]].
  - destruct (ready_shape (set_paddle g (Paddle_update inp (paddle g))))
      as (x & a & d & ->).
    apply (play_transfer g); try reflexivity; assumption.
  - apply (running_play (set_paddle (_launch_ball g)
                           (Paddle_update inp (paddle g))));
      [exact Hst | exact (proj1 Hb) | reflexivity | exact E].
  - apply (running_play (set_paddle g (Paddle_update inp (paddle g))));
      [exact Hst | exact (proj1 Hb) | exact Hs | exact E].
  - destruct (dropped_shape (set_paddle g (Paddle_update inp (paddle g))))
      as [-> | ->].
    + destruct Hb as ((st & Hlk & Hsub) & Hrun & Hwin).
      unfold flags_ok, field_ok.
      split; [split|split; [|split]].
      * split; [discriminate | intros [?|?]; discriminate].
      * intros _. split; reflexivity.
      * exists st. split; [exact Hlk | exact Hsub].
      * discriminate.
      * discriminate.
    + destruct Hb as ((st & Hlk & Hsub) & Hrun & Hwin).
      destruct Hf as (Ho & _).
      unfold flags_ok, field_ok.
      split; [split|split; [|split]].
      * split; [intros _; right; reflexivity|].
        intros _. apply Ho. left. exact Hs.
      * discriminate.
      * exists st. split; [exact Hlk | exact Hsub].
      * discriminate.
      * discriminate.
  - apply (play_transfer g); try reflexivity; assumption.
  - match goal with
    | |- context [_update_ready_state ?G] =>
        destruct (ready_shape G) as (x & a & d & ->)
    end.
    apply (play_fresh _ st0 (stages g) 1); try reflexivity. exact Hst0.
Qed.

Lemma reachable_play (g : BreakoutGame) :
  reachable g -> flags_ok g /\ field_ok g.
Proof.
  induction 1 as [g0 g E | g inp g' Hg IH E].
  - apply _start_new_game_Ok in E as (st0 & Hst0 & ->).
    apply (play_fresh _ st0 (stages g0) 1); try reflexivity. exact Hst0.
  - destruct IH as [Hf Hb].
    exact (play_update inp g g' (reachable_invariant g Hg) Hf Hb E).
Qed.

(** X11.  In every reachable state the ball's out-of-bounds flag is up
    exactly when the state is DROPPED or GAME_OVER, and in READY the ball has
    no velocity. *)
Theorem flag_follows_state (g : BreakoutGame) :
  reachable g ->
  (Ball.out_of_bounds (ball g) = true <->
   current_game_state g = DROPPED \/ current_game_state g = GAME_OVER)
  /\ (current_game_state g = READY ->
      Ball.speed_x (ball g) = 0%float /\ Ball.speed_y (ball g) = 0%float).
Proof. intros Hg. exact (proj1 (reachable_play g Hg)). Qed.

(** X12.  In every reachable state the bricks are a sub-sequence of the
    layout of the current stage, in the order of the stage file; a RUNNING
    game has at least one brick; a game in state WIN has none and its stage
    counter is at the last stage. *)
Theorem bricks_within_stage_layout (g : BreakoutGame) :
  reachable g ->
  (exists st : Stage.t,
     stages g !! Z.to_nat (current_stage g - 1) = Some st
     /\ bricks g `sublist_of` map Brick_of_entry (Stage.bricks st))
  /\ (current_game_state g = RUNNING -> bricks g <> [])
  /\ (current_game_state g = WIN ->
      bricks g = []
      /\ current_stage g = Z.of_nat (length (stages g))).
Proof. intros Hg. exact (proj2 (reachable_play g Hg)). Qed.

(** X10.  From a reset the indicator is a triangle wave of the number of
    READY updates: after [n] updates the angle is [sweep_angle n] and the
    direction [sweep_direction n], so that both repeat every 180 updates and
    the indicator is back at angle 0, direction +1, after 180. *)
Theorem sweep_closed_form (g : BreakoutGame) (n : nat) :
  let sweep k := repeat_update _update_ready_state k (_reset_ball g) in
  angle (sweep n) = sweep_angle n
  /\ angle_direction (sweep n) = sweep_direction n
  /\ angle (sweep (n + 180)%nat) = angle (sweep n)
  /\ angle_direction (sweep (n + 180)%nat) = angle_direction (sweep n)
  /\ angle (sweep 180%nat) = 0 /\ angle_direction (sweep 180%nat) = 1.
Proof.
  cbn zeta.
  assert (Hform : forall k : nat,
            angle (repeat_update _update_ready_state k (_reset_ball g))
            = sweep_angle k
            /\ angle_direction
                 (repeat_update _update_ready_state k (_reset_ball g))
               = sweep_direction k).
  { induction k as [|k [IHa IHd]].
    - split; reflexivity.
    - cbn [repeat_update].
      set (gk := repeat_update _update_ready_state k (_reset_ball g)) in *.
      assert (Es : angle_cycle_speed gk = 2)
        by (destruct (indicator_ok_sweep g k) as (Es & _); exact Es).
      assert (Ea : angle (_update_ready_state gk) = sweep_angle (S k)).
      { rewrite ready_angle, IHa, IHd, Es.
        unfold sweep_angle, sweep_direction. cbn zeta.
        replace (Z.of_nat (S k)) with (Z.of_nat k + 1) by lia.
        destruct (Z.ltb_spec (Z.of_nat k mod 180) 90);
          destruct (Z.leb_spec (Z.of_nat k mod 180) 90);
          destruct (Z.leb_spec ((Z.of_nat k + 1) mod 180) 90);
          Z.div_mod_to_equations; lia. }
      split; [exact Ea|].
      rewrite ready_direction, Ea, IHd.
      unfold sweep_angle, sweep_direction. cbn zeta.
      replace (Z.of_nat (S k)) with (Z.of_nat k + 1) by lia.
      destruct (Z.ltb_spec (Z.of_nat k mod 180) 90);
        destruct (Z.ltb_spec ((Z.of_nat k + 1) mod 180) 90);
        destruct (Z.leb_spec ((Z.of_nat k + 1) mod 180) 90);
        match goal with
        | |- context [(?a =? 180) || (?b =? 0)] =>
            destruct (Z.eqb_spec a 180); destruct (Z.eqb_spec b 0)
        end; cbn [orb]; Z.div_mod_to_equations; lia. }
  assert (Hper : forall k : nat,
            sweep_angle (k + 180) = sweep_angle k
            /\ sweep_direction (k + 180) = sweep_direction k).
  { intros k. unfold sweep_angle, sweep_direction. cbn zeta.
    replace (Z.of_nat (k + 180)) with (Z.of_nat k + 1 * 180) by lia.
    rewrite Z_mod_plus_full. split; reflexivity. }
  destruct (Hform n) as [Ea Ed]. destruct (Hform (n + 180)%nat) as [Ea' Ed'].
  destruct (Hper n) as [Pa Pd]. destruct (Hform 180%nat) as [Ea0 Ed0].
  split; [exact Ea|]. split; [exact Ed|].
  split; [rewrite Ea', Ea; exact Pa|].
  split; [rewrite Ed', Ed; exact Pd|].
  split; [rewrite Ea0 | rewrite Ed0]; reflexivity.
Qed.

(** X16.  A READY frame without a launch leaves the ball centred on the
    paddle as this frame's [paddle.update()] left it: its [x] is the paddle's
    [x] plus half its width minus the radius.  Height, velocity and flag of
    the ball are untouched. *)
Theorem ready_frame_centres_ball (inp : Input) (g : BreakoutGame) :
  current_game_state g = READY -> launch_pressed inp = false ->
  exists g' : BreakoutGame,
    _update inp g = Ok g'
    /\ paddle g' = Paddle_update inp (paddle g)
    /\ Ball.x (ball g')
       = (Paddle.x (paddle g') + Paddle.w (paddle g') / 2
          - Ball.r (ball g'))%float
    /\ Ball.y (ball g') = Ball.y (ball g)
    /\ Ball.speed_x (ball g') = Ball.speed_x (ball g)
    /\ Ball.speed_y (ball g') = Ball.speed_y (ball g)
    /\ Ball.out_of_bounds (ball g') = Ball.out_of_bounds (ball g)
    /\ current_game_state g' = READY.
Proof.
  intros Hs Hl. rewrite _update_READY_idle by assumption.
  eexists. split; [reflexivity|].
  unfold _update_ready_state. cbn zeta.
  destruct (_ || _); cbn; rewrite Hs; repeat split.
Qed.

(** *** Drawing *)

Lemma filter_game_elements_bricks (bs : list Brick.t) :
  List.filter is_game_element (map Brick_draw bs) = map Brick_draw bs.
Proof. induction bs as [|b bs IH]; [reflexivity|]. cbn. rewrite IH. reflexivity. Qed.

Lemma filter_game_elements_hearts (l : list Z) :
  List.filter is_game_element (map heart l) = [].
Proof. induction l as [|i l IH]; [reflexivity|]. cbn. exact IH. Qed.

Lemma filter_game_elements_ui (g : BreakoutGame) :
  List.filter is_game_element (_draw_ui g) = [].
Proof.
  unfold _draw_ui. rewrite List.filter_app, filter_game_elements_hearts.
  reflexivity.
Qed.

Lemma filter_game_elements_elements (g : BreakoutGame) :
  List.filter is_game_element (_draw_game_elements g) = _draw_game_elements g.
Proof.
  unfold _draw_game_elements. cbn [app List.filter is_game_element].
  rewrite List.filter_app, filter_game_elements_bricks. reflexivity.
Qed.

(** X13.  Every drawing starts by clearing the screen.  The paddle, the
    bricks (one call a brick, in list order) and the ball are drawn in READY
    and RUNNING, and in no other state; in DROPPED nothing is drawn after
    the clear; and in DROPPED, GAME_OVER and WIN the drawing depends on the
    state alone: neither score, lives nor playfield are shown. *)
Theorem draw_by_state (frame_count : Z) (g : BreakoutGame) :
  (exists rest : list DrawCall,
     _draw frame_count g = Cls COLOR_LIGHT_BLUE :: rest)
  /\ (current_game_state g = READY \/ current_game_state g = RUNNING ->
      List.filter is_game_element (_draw frame_count g)
      = [Paddle_draw (paddle g)] ++ map Brick_draw (bricks g)
        ++ [Ball_draw (ball g)])
  /\ (current_game_state g = DROPPED ->
      _draw frame_count g = [Cls COLOR_LIGHT_BLUE])
  /\ (current_game_state g <> READY -> current_game_state g <> RUNNING ->
      List.filter is_game_element (_draw frame_count g) = []
      /\ forall (frame_count' : Z) (g' : BreakoutGame),
           current_game_state g' = current_game_state g ->
           _draw frame_count' g' = _draw frame_count g).
Proof.
  split; [eexists; reflexivity|]. split; [|split].
  - intros [Hs|Hs]; unfold _draw; rewrite Hs; cbn [List.filter is_game_element].
    + unfold _draw_ready_state. cbn zeta.
      rewrite !List.filter_app, filter_game_elements_elements,
        filter_game_elements_ui.
      destruct (_ =? 0); cbn [List.filter is_game_element app];
        rewrite app_nil_r; reflexivity.
    + unfold _draw_running_state.
      rewrite List.filter_app, filter_game_elements_elements,
        filter_game_elements_ui.
      rewrite app_nil_r. reflexivity.
  - intros Hs. unfold _draw. rewrite Hs. reflexivity.
  - intros Hr Hn. unfold _draw.
    destruct (current_game_state g) eqn:Hs; try contradiction;
      (split; [reflexivity|]); intros fc' g' ->; reflexivity.
Qed.

Lemma heart_shape (i : Z) :
  heart i = Blt (10 + (i mod 10) * 9) (10 + (i / 10) * 9) 0 0 0 16 16
              COLOR_ORANGE 0.5%float.
Proof. reflexivity. Qed.

Lemma filter_Blt_hearts (l : list Z) :
  List.filter is_Blt (map heart l) = map heart l.
Proof. induction l as [|i l IH]; [reflexivity|]. cbn. rewrite IH. reflexivity. Qed.

(** X14.  [_draw_ui] draws one heart for each life and none for no or
    negative lives; the heart of index [i] is at column [10 + 9 (i mod 10)]
    and row [10 + 9 (i / 10)], so the hearts come in rows of ten between the
    columns 10 and 91 and no two of them at the same place.  As the lives of
    a reachable state are never positive, no heart is ever drawn in a
    game. *)
Theorem hearts_of_lives (g : BreakoutGame) :
  List.filter is_Blt (_draw_ui g) = map heart (seqZ 0 (lives (stats g)))
  /\ length (List.filter is_Blt (_draw_ui g)) = Z.to_nat (lives (stats g))
  /\ (forall i : Z,
        exists x y : Z,
          heart i = Blt x y 0 0 0 16 16 COLOR_ORANGE 0.5%float
          /\ x = 10 + 9 * (i mod 10) /\ y = 10 + 9 * (i / 10)
          /\ 10 <= x <= 91)
  /\ (forall i j : Z, heart i = heart j -> i = j)
  /\ (reachable g -> List.filter is_Blt (_draw_ui g) = []).
Proof.
  assert (Hf : List.filter is_Blt (_draw_ui g)
               = map heart (seqZ 0 (lives (stats g)))).
  { unfold _draw_ui. rewrite List.filter_app, filter_Blt_hearts.
    cbn. apply app_nil_r. }
  split; [exact Hf|]. split; [|split; [|split]].
  - rewrite Hf, length_map, length_seqZ. reflexivity.
  - intros i. eexists. eexists. rewrite heart_shape.
    split; [reflexivity|].
    split; [lia|]. split; [lia|].
    Z.div_mod_to_equations. lia.
  - intros i j. rewrite !heart_shape. intros E.
    injection E as Ex Ey. Z.div_mod_to_equations. lia.
  - intros Hg. rewrite Hf.
    apply reachable_invariant in Hg as (_ & _ & _ & Hl).
    rewrite seqZ_nil; [reflexivity|].
    destruct Hl as [[-> _]|[-> _]]; lia.
Qed.

(** X15.  In READY the launch hint blinks with a period of 60 frames: it is
    drawn in the frames whose count is below 30 modulo 60, and in no other
    frame. *)
Theorem launch_hint_blinks (frame_count : Z) (g : BreakoutGame) :
  current_game_state g = READY ->
  (In (Text 175 100 "Left Mouse Click to Launch!" COLOR_BLACK)
      (_draw frame_count g)
   <-> frame_count mod 60 < 30)
  /\ _draw (frame_count + 60) g = _draw frame_count g.
Proof.
  intros Hs. unfold _draw. rewrite Hs. unfold _draw_ready_state. cbn zeta.
  assert (Hcond : ((frame_count / 30) mod 2 =? 0) = true
                  <-> frame_count mod 60 < 30).
  { rewrite Z.eqb_eq. Z.div_mod_to_equations. lia. }
  assert (Hper : ((frame_count + 60) / 30) mod 2 = (frame_count / 30) mod 2).
  { Z.div_mod_to_equations. lia. }
  split; [|rewrite Hper; reflexivity].
  assert (Hnot : ~ In (Text 175 100 "Left Mouse Click to Launch!" COLOR_BLACK)
                     (_draw_game_elements g ++ _draw_ui g
                      ++ [Line (Paddle.x (paddle g) + Paddle.w (paddle g) / 2)
                            (Paddle.y (paddle g))
                            (Paddle.x (paddle g) + Paddle.w (paddle g) / 2
                             + 25 * cos (radians (angle g)))
                            (Paddle.y (paddle g)
                             - 25 * sin (radians (angle g)))
                            COLOR_RED])).
  { unfold _draw_game_elements, _draw_ui. rewrite !in_app_iff.
    intros [[[E|[]] | [Hin | [E|[]]]] | [[Hin | [E|[]]] | [E|[]]]];
      try discriminate.
    - apply in_map_iff in Hin as (b & E & _). discriminate.
    - apply in_map_iff in Hin as (i & E & _). discriminate. }
  rewrite <- Hcond. split.
  - intros [E|Hin]; [discriminate|].
    destruct ((frame_count / 30) mod 2 =? 0); [reflexivity|].
    exfalso. apply Hnot. rewrite !in_app_iff in Hin. rewrite !in_app_iff.
    destruct Hin as [Hin | [Hin | [Hin | []]]]; auto.
  - intros ->. right. rewrite !in_app_iff. right. right. right.
    left. reflexivity.
Qed.

End Extras.

(** ** The game loop on the reference instance *)

#[local] Existing Instance SpecModel.collaborators.

Lemma fresh_game_reachable (table : list Stage.t) (inps : list Input)
    (g : BreakoutGame) :
  (let* g0 := __init__ table in run inps g0) = Ok g -> reachable g.
Proof.
  intros E. apply bind_Ok in E as (g0 & E0 & E).
  apply (run_reachable inps g0); [|exact E].
  apply (__init___reachable table), E0.
Qed.

Lemma dropped_game_reachable : reachable SpecModel.dropped_game.
Proof.
  apply (fresh_game_reachable SpecModel.one_brick_table SpecModel.drop_inputs).
  vm_compute. reflexivity.
Qed.

Lemma dropped_game_state :
  current_game_state SpecModel.dropped_game = DROPPED.
Proof. vm_compute. reflexivity. Qed.

Lemma game_over_game_reachable : reachable SpecModel.game_over_game.
Proof.
  apply (reachable_frame SpecModel.dropped_game (SpecModel.idle 225));
    [exact dropped_game_reachable|].
  vm_compute. reflexivity.
Qed.

Lemma last_brick_game_reachable : reachable SpecModel.last_brick_game.
Proof.
  apply (fresh_game_reachable SpecModel.floor_brick_table
           SpecModel.last_brick_inputs).
  vm_compute. reflexivity.
Qed.

(** What [last_brick_game] looks like: the ball is above the line
    [height + r = 202] and above the brick at 206, and falls by 0.6 a frame. *)
Example last_brick_game_fields :
  current_game_state SpecModel.last_brick_game = RUNNING
  /\ current_stage SpecModel.last_brick_game = 1
  /\ length (stages SpecModel.last_brick_game) = 1%nat
  /\ bricks SpecModel.last_brick_game = [Brick.mk 465 206 1]
  /\ stats SpecModel.last_brick_game = mkGameStats 0 0
  /\ Ball.x (ball SpecModel.last_brick_game) = 467.85075261967984%float
  /\ Ball.y (ball SpecModel.last_brick_game) = 201.40662330788726%float
  /\ Ball.r (ball SpecModel.last_brick_game) = 2%float
  /\ Ball.speed_x (ball SpecModel.last_brick_game) = 2.4984770675477392%float
  /\ Ball.speed_y (ball SpecModel.last_brick_game) = 0.59875125824374797%float
  /\ Ball.out_of_bounds (ball SpecModel.last_brick_game) = false.
Proof. repeat split; vm_compute; reflexivity. Qed.

(** The scan of [scan_game] tests the brick of index 2, which the ball
    misses, then the brick of index 1, which it hits and which is deleted; the
    brick of index 0, which the ball overlaps too, is not tested and stays. *)
Example scan_game_check_collision :
  exists b' : Ball.t,
    _check_collision_bricks 3
      (snd (detect_collision (ball SpecModel.scan_game)
              (TPaddle (paddle SpecModel.scan_game)) true))
      (bricks SpecModel.scan_game)
    = Ok (b', [Brick.mk 98 98 1; Brick.mk 300 20 1], [(2%nat, false); (1%nat, true)])
    /\ fst (detect_collision b' (TBrick (Brick.mk 98 98 1)) false) = true.
Proof. eexists. split; vm_compute; reflexivity. Qed.

Lemma fresh_game_reachable_one_brick : reachable SpecModel.fresh_game.
Proof.
  apply (__init___reachable SpecModel.one_brick_table).
  vm_compute. reflexivity.
Qed.

(** ** The claims at concrete games *)

(** After the last brick of a stage that is not the last, the same frame
    ends in READY at the next stage: [_next_stage] resets the ball, and the
    clear beats the drop. *)
Example last_brick_two_stage_advances :
  reachable SpecModel.last_brick_two_stage_game
  /\ current_game_state SpecModel.last_brick_two_stage_game = RUNNING
  /\ exists g' : BreakoutGame,
       _update (SpecModel.idle 225) SpecModel.last_brick_two_stage_game
       = Ok g'
       /\ current_game_state g' = READY
       /\ current_stage g' = 2
       /\ lives (stats g') = 0
       /\ Ball.out_of_bounds (ball g') = false.
Proof.
  split.
  { apply (fresh_game_reachable SpecModel.floor_brick_two_stage_table
             SpecModel.last_brick_inputs).
    vm_compute. reflexivity. }
  split; [vm_compute; reflexivity|].
  eexists. split; [vm_compute; reflexivity|].
  repeat split; vm_compute; reflexivity.
Qed.

(** After the last brick of the last stage, taken in the frame in which the
    ball leaves the playfield, the game is lost one frame later: no brick is
    left, and the state is GAME_OVER. *)
Example last_brick_game_lost :
  exists g'' : BreakoutGame,
    run [SpecModel.idle 225; SpecModel.idle 225] SpecModel.last_brick_game
    = Ok g''
    /\ bricks g'' = []
    /\ current_stage g'' = Z.of_nat (length (stages g''))
    /\ current_game_state g'' = GAME_OVER
    /\ lives (stats g'') = -1.
Proof.
  eexists. split; [vm_compute; reflexivity|].
  repeat split; vm_compute; reflexivity.
Qed.

(** C1 fails on the code.  On [floor_brick_table] the game reaches, RUNNING,
    the frame in which the ball meets the last brick of the last stage while
    it crosses the lower edge: after collision resolution the brick field is
    empty and the stage counter equals the number of stages, and the frame
    ends in DROPPED, not in WIN. *)
Lemma C1_drop_overrides_win :
  reachable SpecModel.last_brick_game
  /\ current_game_state SpecModel.last_brick_game = RUNNING
  /\ exists g1 g' : BreakoutGame,
       _check_collision
         (set_ball SpecModel.last_brick_frame
            (Ball_update (ball SpecModel.last_brick_frame))) = Ok g1
       /\ bricks g1 = []
       /\ current_stage g1 = Z.of_nat (length (stages g1))
       /\ Ball.out_of_bounds (ball g1) = true
       /\ _update (SpecModel.idle 225) SpecModel.last_brick_game = Ok g'
       /\ current_game_state g' = DROPPED
       /\ current_game_state g' <> WIN.
Proof.
  split; [exact last_brick_game_reachable|].
  split; [vm_compute; reflexivity|].
  eexists. eexists.
  split; [vm_compute; reflexivity|].
  split; [vm_compute; reflexivity|].
  split; [vm_compute; reflexivity|].
  split; [vm_compute; reflexivity|].
  split; [vm_compute; reflexivity|].
  split; [vm_compute; reflexivity|].
  vm_compute. discriminate.
Qed.

(** On the stage without bricks the first RUNNING update of the launched
    ball wins the game. *)
Lemma last_stage_cleared_in_bounds_example :
  _update_running_state SpecModel.launched_empty
  = Ok (set_current_game_state
          (SpecModel.the
             (_check_collision
                (set_ball SpecModel.launched_empty
                   (Ball_update (ball SpecModel.launched_empty)))))
          WIN).
Proof.
  refine (proj1 (last_stage_cleared_in_bounds SpecModel.launched_empty
                   (SpecModel.the
                      (_check_collision
                         (set_ball SpecModel.launched_empty
                            (Ball_update (ball SpecModel.launched_empty)))))
                   _ _ _ _)); vm_compute; reflexivity.
Defined.

(** C2 fails on the code.  The fresh game on [one_brick_table], after the
    inputs of [drop_inputs] and one more frame, is a reachable state in which
    the lives are -1. *)
Theorem C2_lives_negative_after_first_drop :
  (let* g := __init__ SpecModel.one_brick_table in
   run (SpecModel.drop_inputs ++ [SpecModel.idle 225]) g)
  = Ok SpecModel.game_over_game
  /\ reachable SpecModel.game_over_game
  /\ lives (stats SpecModel.game_over_game) = -1
  /\ ~ (lives (stats SpecModel.game_over_game) >= 0)
  /\ score (stats SpecModel.game_over_game) = 0.
Proof.
  split; [vm_compute; reflexivity|].
  split; [exact game_over_game_reachable|].
  split; [vm_compute; reflexivity|].
  split; [vm_compute; intros Hge; apply Hge; reflexivity|].
  vm_compute. reflexivity.
Qed.

(** C3 on [scan_game], where the ball overlaps the bricks of index 0 and
    1: the scan deletes the brick of index 1 and no other, and the frame
    leaves no more bricks than it found. *)
Lemma C3_one_brick_per_scan_witness :
  (exists b' : Ball.t,
     _check_collision SpecModel.scan_game
     = Ok (set_bricks (set_ball SpecModel.scan_game b')
             [Brick.mk 98 98 1; Brick.mk 300 20 1]))
  /\ ((length (bricks (SpecModel.the
                         (_update (SpecModel.idle 225) SpecModel.scan_game)))
       <= length (bricks SpecModel.scan_game))%nat
      \/ (exists (k : nat) (st : Stage.t),
            stages SpecModel.scan_game !! k = Some st
            /\ bricks (SpecModel.the
                         (_update (SpecModel.idle 225) SpecModel.scan_game))
               = map Brick_of_entry (Stage.bricks st))).
Proof.
  destruct (C3_one_brick_per_scan SpecModel.scan_game)
    as (b' & bs' & calls & _ & E & Hcases & Hframe).
  split.
  - exists b'.
    destruct Hcases
      as [(Hall & _) | (i & brick & Hi & Hbr & Hd & Habove & -> & _)].
    + exfalso.
      pose proof (Hall 1%nat (Brick.mk 98 99 1) eq_refl) as Hv.
      vm_compute in Hv. discriminate Hv.
    + destruct i as [|[|[|i]]].
      * exfalso.
        assert (H01 : (0 < 1)%nat) by (apply Nat.lt_0_succ).
        pose proof (Habove 1%nat (Brick.mk 98 99 1) H01 eq_refl) as Hv.
        vm_compute in Hv. discriminate Hv.
      * exact E.
      * exfalso. vm_compute in Hbr. injection Hbr as <-.
        vm_compute in Hd. discriminate Hd.
      * exfalso. cbn in Hi. lia.
  - apply (Hframe (SpecModel.idle 225)). vm_compute. reflexivity.
Defined.

(** C4 on the dropped game: the counter is in range, and at the last stage
    two more calls of [_next_stage] leave it there, in state WIN. *)
Lemma C4_stage_counter_in_range_witness :
  1 <= current_stage SpecModel.dropped_game
    <= Z.of_nat (length (stages SpecModel.dropped_game))
  /\ exists g' : BreakoutGame,
       repeat_next_stage 2 SpecModel.dropped_game = Ok g'
       /\ g' = set_current_game_state SpecModel.dropped_game WIN
       /\ current_game_state g' = WIN
       /\ current_stage g' = current_stage SpecModel.dropped_game.
Proof.
  split.
  - apply (proj1 C4_stage_counter_in_range). exact dropped_game_reachable.
  - apply (proj1 (proj2 C4_stage_counter_in_range)). vm_compute. reflexivity.
Defined.


(** C6 on the fresh game: a press of the launch key launches. *)
Lemma C6_launch_velocity_witness :
  _check_input (SpecModel.press_launch 225) SpecModel.fresh_game
  = Ok (_launch_ball SpecModel.fresh_game).
Proof.
  pose proof (C6_launch_velocity SpecModel.fresh_game) as P.
  cbn zeta in P. destruct P as (_ & _ & _ & Hinput).
  apply Hinput; vm_compute; reflexivity.
Defined.

(** C7 on the fresh game: the first READY frame turns the indicator by two
    degrees. *)
Lemma C7_indicator_sweep_witness :
  0 <= angle SpecModel.fresh_game <= 180
  /\ exists g' : BreakoutGame,
       _update (SpecModel.idle 225) SpecModel.fresh_game = Ok g'
       /\ current_game_state g' = READY
       /\ angle g'
          = angle SpecModel.fresh_game
            + angle_direction SpecModel.fresh_game * 2
       /\ 0 <= angle g' <= 180.
Proof.
  pose proof (C7_indicator_sweep SpecModel.fresh_game) as P.
  cbn zeta in P. destruct P as (_ & _ & _ & _ & _ & Hgame).
  destruct (Hgame fresh_game_reachable_one_brick) as [Hrange Hframe].
  split; [exact Hrange|].
  apply Hframe; vm_compute; reflexivity.
Defined.

(** C8 on the lost game: a frame with the launch key pressed changes nothing
    but the paddle, a frame with the restart key pressed starts anew. *)
Lemma C8_terminal_states_witness :
  (exists g' : BreakoutGame,
     _update (SpecModel.press_launch 100) SpecModel.game_over_game = Ok g'
     /\ g' = set_paddle SpecModel.game_over_game
               (Paddle_update (SpecModel.press_launch 100)
                  (paddle SpecModel.game_over_game))
     /\ ball g' = ball SpecModel.game_over_game
     /\ bricks g' = bricks SpecModel.game_over_game
     /\ stats g' = stats SpecModel.game_over_game
     /\ current_stage g' = current_stage SpecModel.game_over_game
     /\ current_game_state g' = current_game_state SpecModel.game_over_game)
  /\ (exists g' : BreakoutGame,
        _update (SpecModel.press_restart 100) SpecModel.game_over_game = Ok g'
        /\ stats g' = GameStats_new
        /\ current_stage g' = 1
        /\ bricks g' = [Brick.mk 10 10 1]
        /\ current_game_state g' = READY
        /\ Ball.speed_x (ball g') = 0%float
        /\ Ball.speed_y (ball g') = 0%float
        /\ Ball.trail (ball g') = []
        /\ Ball.out_of_bounds (ball g') = false
        /\ Ball.y (ball g')
           = (Paddle.y (paddle SpecModel.game_over_game)
              - 2 * Ball.r (ball SpecModel.game_over_game))%float).
Proof.
  assert (Ht : terminal (current_game_state SpecModel.game_over_game))
    by (left; vm_compute; reflexivity).
  split.
  - apply (proj1 (C8_terminal_states (SpecModel.press_launch 100)
                    SpecModel.game_over_game Ht)).
    reflexivity.
  - apply (proj1 (proj2 (C8_terminal_states (SpecModel.press_restart 100)
                           SpecModel.game_over_game Ht))
             eq_refl (Stage.mk [Stage.mkEntry 10 10 1])).
    vm_compute. reflexivity.
Defined.

(** C10 on the dropped game: no life before the frame, -1 and GAME_OVER
    after. *)
Lemma C10_zero_lives_at_start_witness :
  lives (stats SpecModel.dropped_game) = 0
  /\ exists g' : BreakoutGame,
       _update (SpecModel.idle 225) SpecModel.dropped_game = Ok g'
       /\ lives (stats g') = -1
       /\ current_game_state g' = GAME_OVER.
Proof.
  apply (proj2 C10_zero_lives_at_start).
  - exact dropped_game_reachable.
  - vm_compute. reflexivity.
Defined.

(** ** The further properties at concrete games *)

(** X2 on the fresh game: index -1 is the last stage, here the only one. *)
Lemma load_stage_index_witness :
  exists st : Stage.t,
    stages SpecModel.fresh_game !! Z.to_nat ((-1) mod 1) = Some st
    /\ _load_stage (-1) SpecModel.fresh_game
       = Ok (set_bricks SpecModel.fresh_game
               (map Brick_of_entry (Stage.bricks st)))
    /\ (forall (k : nat) (e : Stage.entry),
          Stage.bricks st !! k = Some e ->
          map Brick_of_entry (Stage.bricks st) !! k
          = Some (Brick.mk (Stage.x e) (Stage.y e) (Stage.brick_type e))).
Proof.
  pose proof (load_stage_index (-1) SpecModel.fresh_game) as P.
  cbn zeta in P. destruct P as [Hin _].
  apply Hin. vm_compute. split; [discriminate | reflexivity].
Defined.

(** X4 on the frame that ends the dropped game. *)
Lemma score_never_awarded_witness :
  stages SpecModel.game_over_game = stages SpecModel.dropped_game
  /\ (score (stats SpecModel.game_over_game)
      = score (stats SpecModel.dropped_game)
      \/ (terminal (current_game_state SpecModel.dropped_game)
          /\ btnp_KEY_RETURN (SpecModel.idle 225) = true
          /\ score (stats SpecModel.game_over_game) = 0))
  /\ (reachable SpecModel.dropped_game ->
      score (stats SpecModel.dropped_game) = 0
      /\ score (stats SpecModel.game_over_game) = 0).
Proof.
  apply (score_never_awarded (SpecModel.idle 225)).
  vm_compute. reflexivity.
Defined.

(** X7 on the dropped game: a launch key does nothing. *)
Lemma check_input_gating_witness :
  _check_input (SpecModel.press_launch 225) SpecModel.dropped_game
  = Ok SpecModel.dropped_game.
Proof.
  apply (proj1 (check_input_gating (SpecModel.press_launch 225)
                  SpecModel.dropped_game)).
  right. vm_compute. reflexivity.
Defined.

(** X8 on the table whose first stage is empty: the first RUNNING update
    moves on to the second stage. *)
Lemma stage_cleared_advances_witness :
  exists (st : Stage.t) (g' : BreakoutGame),
    stages (SpecModel.the
              (_check_collision
                 (set_ball SpecModel.launched_two_stage
                    (Ball_update (ball SpecModel.launched_two_stage)))))
      !! Z.to_nat 1 = Some st
    /\ _update_running_state SpecModel.launched_two_stage = Ok g'
    /\ current_game_state g' = READY
    /\ current_stage g' = 2
    /\ bricks g' = map Brick_of_entry (Stage.bricks st)
    /\ Ball.out_of_bounds (ball g') = false.
Proof.
  destruct (stage_cleared_advances SpecModel.launched_two_stage
              (SpecModel.the
                 (_check_collision
                    (set_ball SpecModel.launched_two_stage
                       (Ball_update (ball SpecModel.launched_two_stage))))))
    as (st & g' & Hst & E & _ & Hs & Hc & Hb & Ho).
  - vm_compute. reflexivity.
  - vm_compute. reflexivity.
  - vm_compute. split; [discriminate | reflexivity].
  - exists st, g'. split; [exact Hst|]. split; [exact E|].
    split; [exact Hs|]. split; [exact Hc|]. split; [exact Hb | exact Ho].
Defined.

(** X9 on the frame that ends the dropped game. *)
Lemma frame_transitions_witness :
  may_follow (current_game_state SpecModel.dropped_game)
    (current_game_state SpecModel.game_over_game) = true
  /\ (current_game_state SpecModel.game_over_game = GAME_OVER ->
      current_game_state SpecModel.dropped_game = DROPPED
      \/ current_game_state SpecModel.dropped_game = GAME_OVER).
Proof.
  apply (frame_transitions (SpecModel.idle 225)). vm_compute. reflexivity.
Defined.

(** X11 on the dropped game. *)
Lemma flag_follows_state_witness :
  (Ball.out_of_bounds (ball SpecModel.dropped_game) = true <->
   current_game_state SpecModel.dropped_game = DROPPED
   \/ current_game_state SpecModel.dropped_game = GAME_OVER)
  /\ (current_game_state SpecModel.dropped_game = READY ->
      Ball.speed_x (ball SpecModel.dropped_game) = 0%float
      /\ Ball.speed_y (ball SpecModel.dropped_game) = 0%float).
Proof. apply flag_follows_state. exact dropped_game_reachable. Defined.

(** X12 on the dropped game. *)
Lemma bricks_within_stage_layout_witness :
  (exists st : Stage.t,
     stages SpecModel.dropped_game
       !! Z.to_nat (current_stage SpecModel.dropped_game - 1) = Some st
     /\ bricks SpecModel.dropped_game
        `sublist_of` map Brick_of_entry (Stage.bricks st))
  /\ (current_game_state SpecModel.dropped_game = RUNNING ->
      bricks SpecModel.dropped_game <> [])
  /\ (current_game_state SpecModel.dropped_game = WIN ->
      bricks SpecModel.dropped_game = []
      /\ current_stage SpecModel.dropped_game
         = Z.of_nat (length (stages SpecModel.dropped_game))).
Proof. apply bricks_within_stage_layout. exact dropped_game_reachable. Defined.

(** X13 on the fresh game, in READY: paddle, brick and ball are drawn. *)
Lemma draw_by_state_witness :
  List.filter is_game_element (_draw 0 SpecModel.fresh_game)
  = [Paddle_draw (paddle SpecModel.fresh_game)]
    ++ map Brick_draw (bricks SpecModel.fresh_game)
    ++ [Ball_draw (ball SpecModel.fresh_game)].
Proof.
  apply (proj1 (proj2 (draw_by_state 0 SpecModel.fresh_game))).
  left. vm_compute. reflexivity.
Defined.

(** X14 on the fresh game: no heart. *)
Lemma hearts_of_lives_witness :
  List.filter is_Blt (_draw_ui SpecModel.fresh_game) = [].
Proof.
  apply (proj2 (proj2 (proj2 (proj2
           (hearts_of_lives SpecModel.fresh_game))))).
  exact fresh_game_reachable_one_brick.
Defined.

(** X15 on the fresh game. *)
Lemma launch_hint_blinks_witness :
  (In (Text 175 100 "Left Mouse Click to Launch!" COLOR_BLACK)
      (_draw 75 SpecModel.fresh_game)
   <-> 75 mod 60 < 30)
  /\ _draw (75 + 60) SpecModel.fresh_game = _draw 75 SpecModel.fresh_game.
Proof. apply launch_hint_blinks. vm_compute. reflexivity. Defined.

(** X16 on the fresh game, the pointer at column 100. *)
Lemma ready_frame_centres_ball_witness :
  exists g' : BreakoutGame,
    _update (SpecModel.idle 100) SpecModel.fresh_game = Ok g'
    /\ paddle g' = Paddle_update (SpecModel.idle 100)
                     (paddle SpecModel.fresh_game)
    /\ Ball.x (ball g')
       = (Paddle.x (paddle g') + Paddle.w (paddle g') / 2
          - Ball.r (ball g'))%float
    /\ Ball.y (ball g') = Ball.y (ball SpecModel.fresh_game)
    /\ Ball.speed_x (ball g') = Ball.speed_x (ball SpecModel.fresh_game)
    /\ Ball.speed_y (ball g') = Ball.speed_y (ball SpecModel.fresh_game)
    /\ Ball.out_of_bounds (ball g')
       = Ball.out_of_bounds (ball SpecModel.fresh_game)
    /\ current_game_state g' = READY.
Proof. apply ready_frame_centres_ball; vm_compute; reflexivity. Defined.
